(** * Dataviz: the climate-trajectories merge pipeline ([merge_data.py])

    A shallow embedding of [src/climate-trajectories/merge_data.py] and the
    properties of its normalisation, aggregation, merge and sort steps.

    Modelling conventions.
    - A pandas cell is null (NaN, None, NA, NaT), a number or a text.  Numbers
      are exact rationals ([Qc], so that equal numbers are equal terms);
      rounding of binary floating point is not modelled, nor are the boolean
      columns [pd.read_csv] can infer.
    - A frame is its list of column labels (duplicates allowed, as pandas
      allows them after a [rename]) and its rows; the per-column dtype that
      pandas keeps is not modelled.
    - The text-to-number parser of [pd.to_numeric], the number printer of
      [astype("string")] and the date parser of [pd.to_datetime] are
      parameters of the development: every theorem holds for all of them.
    - An exception is a value of [exn]; a function that can raise returns a
      [result]. *)

From Stdlib Require Import QArith Qcanon Ascii String.
From stdpp Require Import base decidable option list strings numbers sorting pretty.

Local Open Scope string_scope.
Local Open Scope list_scope.

(** ** Cells, frames, exceptions *)

Inductive cell :=
  | CNull
  | CNum (q : Qc)
  | CStr (s : string).

Global Instance cell_eq_dec : EqDecision cell.
Proof. solve_decision. Defined.

Global Instance cell_inhabited : Inhabited cell := populate CNull.

Record DataFrame := {
  columns : list string;
  rows : list (list cell)
}.

(** The invariant of a frame built by [pd.read_csv]: a cell per column. *)
Definition frame_wf (df : DataFrame) : Prop :=
  Forall (λ r, length r = length (columns df)) (rows df).

Inductive exn :=
  | ValueError
  | TypeError
  | AttributeError
  | KeyError
  | FileNotFoundError
  | ParserError
  | BadZipFile.

Global Instance exn_eq_dec : EqDecision exn.
Proof. solve_decision. Defined.

Inductive result (A : Type) :=
  | Ok (a : A)
  | Raise (e : exn).
Arguments Ok {A} a.
Arguments Raise {A} e.

Global Instance result_ret : MRet result := λ A a, Ok a.
Global Instance result_bind : MBind result := λ A B f m,
  match m with Ok a => f a | Raise e => Raise e end.

Definition raises {A} (m : result A) : Prop :=
  match m with Ok _ => False | Raise _ => True end.

(** ** Frame operations *)

Definition cell_at (i : nat) (r : list cell) : cell := default CNull (r !! i).

(** The positions of the columns labelled [c], left to right. *)
Fixpoint positions_from (i : nat) (c : string) (cols : list string) : list nat :=
  match cols with
  | [] => []
  | c' :: cs =>
      if decide (c' = c) then i :: positions_from (S i) c cs
      else positions_from (S i) c cs
  end.

Definition label_positions (c : string) (cols : list string) : list nat :=
  positions_from 0 c cols.

(** [df[c]] used as a Series: the label must name one column.  With no such
    column pandas raises [KeyError]; with several, [df[c]] is a frame and the
    Series operation applied to it raises [e]. *)
Definition column_of (e : exn) (c : string) (df : DataFrame) : result nat :=
  match label_positions c (columns df) with
  | [] => Raise KeyError
  | [i] => Ok i
  | _ => Raise e
  end.

(** [df[c] = f(df[c])] on the single column at position [i]. *)
Definition map_column (i : nat) (f : cell → cell) (df : DataFrame) : DataFrame :=
  {| columns := columns df; rows := alter f i <$> rows df |}.

(** [df[c] = ...]: overwrites every column labelled [c], or appends a new
    last column when there is none. *)
Definition assign (c : string) (f : list cell → cell) (df : DataFrame) : DataFrame :=
  match label_positions c (columns df) with
  | [] => {| columns := columns df ++ [c];
             rows := (λ r, r ++ [f r]) <$> rows df |}
  | ps => {| columns := columns df;
             rows := (λ r, foldr (λ i r', <[i := f r]> r') r ps) <$> rows df |}
  end.

(** [df.rename(columns=m)]: every label that is a key of [m] is replaced,
    all at once. *)
Fixpoint dict_get (m : list (string * string)) (c : string) : option string :=
  match m with
  | [] => None
  | (k, v) :: m' => if decide (k = c) then Some v else dict_get m' c
  end.

Definition rename_label (m : list (string * string)) (c : string) : string :=
  default c (dict_get m c).

Definition rename (m : list (string * string)) (df : DataFrame) : DataFrame :=
  {| columns := rename_label m <$> columns df; rows := rows df |}.

(** [df[mask]] *)
Definition filter_rows (P : list cell → Prop) `{!∀ r, Decision (P r)}
    (df : DataFrame) : DataFrame :=
  {| columns := columns df; rows := filter P (rows df) |}.

(** [df[[n1, ..., nk]]]: for each name in turn, all columns with that label. *)
Definition select_row (names : list string) (cols : list string)
    (r : list cell) : list cell :=
  names ≫= (λ c, (λ i, cell_at i r) <$> label_positions c cols).

Definition select (names : list string) (df : DataFrame) : DataFrame :=
  {| columns := names ≫= (λ c, (λ _, c) <$> label_positions c (columns df));
     rows := select_row names (columns df) <$> rows df |}.

(** ** Cell-level pandas operations *)

Definition START_YEAR : Qc := Qc_of_Z 2000.
Definition END_YEAR : Qc := Qc_of_Z 2023.

(** [Series.between(lo, hi)], inclusive on both sides; null compares false. *)
Definition between (lo hi : Qc) (c : cell) : bool :=
  match c with
  | CNum y => bool_decide (lo ≤ y ∧ y ≤ hi)%Qc
  | _ => false
  end.

Definition is_upper (a : ascii) : bool :=
  let n := nat_of_ascii a in (65 <=? n)%nat && (n <=? 90)%nat.

(** [re.match(r"^[A-Z]{3}$", s)]: three capitals, then the end of the text;
    Python's [$] also matches just before one final newline. *)
Definition re_match_iso3 (s : string) : bool :=
  match s with
  | String a (String b (String c rest)) =>
      is_upper a && is_upper b && is_upper c &&
      (bool_decide (rest = "") || bool_decide (rest = String "010"%char ""))
  | _ => false
  end.

(** [Series.str.match(r"^[A-Z]{3}$", na=False)] *)
Definition str_match_iso3 (c : cell) : bool :=
  match c with
  | CStr s => re_match_iso3 s
  | _ => false
  end.

(** The reading the specification gives of the pattern, and the comment of
    line 44 of a kept code ("real countries with ISO3"): a text of exactly
    three capital letters.  The code does not compute it; it is what
    [re_match_iso3] is compared with. *)
Definition three_capitals (s : string) : bool :=
  match s with
  | String a (String b (String c EmptyString)) =>
      is_upper a && is_upper b && is_upper c
  | _ => false
  end.

(** The text of one line feed. *)
Definition line_feed : string := String "010"%char "".

Definition notna (c : cell) : bool :=
  match c with CNull => false | _ => true end.

(** ** Ordering and stable sorting ([sort_values], sorted group keys)

    Ascending order with nulls last ([na_position="last"]); within one
    column numbers are ordered by value and texts by code point.  Numbers
    are put before texts to make the order total: the columns sorted by
    this program hold only numbers or only texts. *)

Definition cell_leb (a b : cell) : bool :=
  match a, b with
  | _, CNull => true
  | CNull, _ => false
  | CNum x, CNum y => bool_decide (x ≤ y)%Qc
  | CNum _, CStr _ => true
  | CStr _, CNum _ => false
  | CStr s, CStr t => String.leb s t
  end.

(** Lexicographic order on the cells of the sort columns. *)
Fixpoint lex_leb (a b : list cell) : bool :=
  match a, b with
  | [], _ => true
  | _ :: _, [] => false
  | x :: a', y :: b' => if decide (x = y) then lex_leb a' b' else cell_leb x y
  end.

(** A stable sort on the key [sort_key]: an item is put before the first
    item whose key is not smaller.  Every stable sort returns this list. *)
Section sort_by.
Context {A : Type} (sort_key : A → list cell).

Fixpoint insert_by (x : A) (l : list A) : list A :=
  match l with
  | [] => [x]
  | y :: l' =>
      if lex_leb (sort_key x) (sort_key y) then x :: y :: l'
      else y :: insert_by x l'
  end.

Definition sort_by (l : list A) : list A := foldr insert_by [] l.

(** The order [sort_by] sorts in. *)
Definition key_le (x y : A) : Prop := lex_leb (sort_key x) (sort_key y) = true.
End sort_by.

Fixpoint columns_of (e : exn) (by_ : list string) (df : DataFrame) : result (list nat) :=
  match by_ with
  | [] => Ok []
  | c :: cs => i ← column_of e c df; ixs ← columns_of e cs df; Ok (i :: ixs)
  end.

Definition cells_at (ixs : list nat) (r : list cell) : list cell :=
  (λ i, cell_at i r) <$> ixs.

(** [df.sort_values(by)] with several labels: a stable lexicographic sort;
    a label borne by several columns raises [ValueError]. *)
Definition sort_values (by_ : list string) (df : DataFrame) : result DataFrame :=
  ixs ← columns_of ValueError by_ df;
  Ok {| columns := columns df; rows := sort_by (cells_at ixs) (rows df) |}.

(** ** Keyed tables and [DataFrame.merge] on [(iso3, country, year)] *)

Definition key : Type := cell * cell * cell.

Definition key_cells (k : key) : list cell := [k.1.1; k.1.2; k.2].

Definition trow : Type := key * list cell.

Record Table := {
  value_labels : list string;
  trows : list trow
}.

Definition key_labels : list string := ["iso3"; "country"; "year"].

Definition row_key (r : list cell) : key := (cell_at 0 r, cell_at 1 r, cell_at 2 r).

Definition frame_keys (df : DataFrame) : list key := row_key <$> rows df.

(** The view [merge] takes of a frame: the three key columns and the other
    columns.  A key label borne by two columns makes [merge] raise
    [ValueError] (label not unique).  The frames this program merges have
    their key columns first, the only layout modelled. *)
Definition keyed (df : DataFrame) : result Table :=
  match columns df with
  | c1 :: c2 :: c3 :: vs =>
      if decide ([c1; c2; c3] = key_labels ∧ Forall (λ c, c ∉ vs) key_labels)
      then Ok {| value_labels := vs;
                 trows := (λ r, (row_key r, drop 3 r)) <$> rows df |}
      else Raise ValueError
  | _ => Raise ValueError
  end.

Definition frame_of_table (t : Table) : DataFrame :=
  {| columns := key_labels ++ value_labels t;
     rows := (λ r, key_cells r.1 ++ r.2) <$> trows t |}.

Definition rows_with (k : key) (t : list trow) : list trow :=
  filter (λ r, r.1 = k) t.

(** The rows an outer join gives for one key: the pairs of matching rows,
    left-major, or the rows of the only side that has the key, the columns
    of the other side null.  Null key cells match each other, as in pandas. *)
Definition join_key (nl nr : nat) (L R : list trow) (k : key) : list trow :=
  match rows_with k L, rows_with k R with
  | [], rs => (λ r, (k, replicate nl CNull ++ r.2)) <$> rs
  | ls, [] => (λ l, (k, l.2 ++ replicate nr CNull)) <$> ls
  | ls, rs => l ← ls; (λ r, (k, l.2 ++ r.2)) <$> rs
  end.

(** [how="outer"]: the union of the keys of both sides, sorted
    lexicographically. *)
Definition merge_outer (L R : Table) : Table :=
  {| value_labels := value_labels L ++ value_labels R;
     trows := sort_by key_cells (remove_dups ((trows L).*1 ++ (trows R).*1))
              ≫= join_key (length (value_labels L)) (length (value_labels R))
                          (trows L) (trows R) |}.

(** [how="left"]: the rows of the left side in their order, each with its
    matches on the right, or with nulls when it has none. *)
Definition merge_left (L R : Table) : Table :=
  {| value_labels := value_labels L ++ value_labels R;
     trows := l ← trows L;
              match rows_with l.1 (trows R) with
              | [] => [(l.1, l.2 ++ replicate (length (value_labels R)) CNull)]
              | rs => (λ r, (l.1, l.2 ++ r.2)) <$> rs
              end |}.

Inductive how := Outer | Left.

(** [left.merge(right, on=["iso3","country","year"], how=h)].  The value
    labels of the two sides differ in every use, so no suffix is added. *)
Definition merge (L R : DataFrame) (h : how) : result DataFrame :=
  l ← keyed L;
  r ← keyed R;
  Ok (frame_of_table
        match h with Outer => merge_outer l r | Left => merge_left l r end).

(** *** Vocabulary for the properties of joins *)

(** What an outer join makes of the rows of one key. *)
Definition outer_joined (nl nr : nat) (L R : list trow) (r : trow) : Prop :=
  (∃ l r', l ∈ L ∧ r' ∈ R ∧ l.1 = r.1 ∧ r'.1 = r.1 ∧ r.2 = l.2 ++ r'.2) ∨
  (∃ l, l ∈ L ∧ l.1 = r.1 ∧ (r.1 ∉ R.*1) ∧ r.2 = l.2 ++ replicate nr CNull) ∨
  (∃ r', r' ∈ R ∧ r'.1 = r.1 ∧ (r.1 ∉ L.*1) ∧ r.2 = replicate nl CNull ++ r'.2).

(** What a left join makes of a left row. *)
Definition left_joined (nr : nat) (L R : list trow) (r : trow) : Prop :=
  ∃ l, l ∈ L ∧ l.1 = r.1 ∧
    ((∃ r', r' ∈ R ∧ r'.1 = r.1 ∧ r.2 = l.2 ++ r'.2) ∨
     ((r.1 ∉ R.*1) ∧ r.2 = l.2 ++ replicate nr CNull)).

(** Every row has a cell per value label. *)
Definition table_wf (t : Table) : Prop :=
  ∀ r, r ∈ trows t → length r.2 = length (value_labels t).

(** [prov] lists, for value columns of a table, the keys of the source the
    column came from: a row whose key the source lacks is null there. *)
Definition nulls_where_absent (prov : list (list key * nat)) (t : Table) : Prop :=
  ∀ r ks i, r ∈ trows t → (ks, i) ∈ prov → r.1 ∉ ks → r.2 !! i = Some CNull.

(** ** Group means ([groupby(...)["temp_anom"].mean()]) *)

Definition numbers (cs : list cell) : list Qc :=
  omap (λ c, match c with CNum q => Some q | _ => None end) cs.

Definition Qc_sum (qs : list Qc) : Qc := foldr Qcplus (Qc_of_Z 0) qs.

(** The mean of the numbers of a group, nulls skipped; null when the group
    has no number. *)
Definition mean (cs : list cell) : cell :=
  match numbers cs with
  | [] => CNull
  | qs => CNum (Qc_sum qs / Qc_of_Z (Z.of_nat (length qs)))%Qc
  end.

Definition key_notna (k : key) : bool :=
  notna k.1.1 && notna k.1.2 && notna k.2.

(** One row per key, the keys sorted; a row with a null key cell belongs to
    no group ([dropna=True], the default). *)
Definition groupby_mean (rs : list (key * cell)) : list (key * cell) :=
  let valid := filter (λ r, key_notna r.1) rs in
  (λ k, (k, mean (filter (λ r, r.1 = k) valid).*2))
    <$> sort_by key_cells (remove_dups valid.*1).

(** ** Files *)

Inductive File :=
  | Csv (df : DataFrame)
  | Zip (members : list (string * option DataFrame))
  | Blob.

(** The files of [DATA_DIR], by name. *)
Definition FileSystem : Type := string → option File.

Definition exists_ (fs : FileSystem) (name : string) : bool :=
  bool_decide (is_Some (fs name)).

(** The file system without the file [name]. *)
Definition without (name : string) (fs : FileSystem) : FileSystem :=
  λ n, if decide (n = name) then None else fs n.

(** Lines 14-19 *)
Fixpoint find_first_existing (fs : FileSystem) (candidates : list string) : option string :=
  match candidates with
  | [] => None
  | name :: rest =>
      if exists_ fs name then Some name else find_first_existing fs rest
  end.

Definition pd_read_csv (fs : FileSystem) (path : string) : result DataFrame :=
  match fs path with
  | Some (Csv df) => Ok df
  | Some _ => Raise ParserError
  | None => Raise FileNotFoundError
  end.

(** Lines 51-54; a member that is no csv is [None]. *)
Definition read_zip_csv (fs : FileSystem) (zip_path csv_name : string) : result DataFrame :=
  match fs zip_path with
  | Some (Zip members) =>
      match list_find (λ m, m.1 = csv_name) members with
      | Some (_, (_, Some df)) => Ok df
      | Some (_, (_, None)) => Raise ParserError
      | None => Raise KeyError
      end
  | Some _ => Raise BadZipFile
  | None => Raise FileNotFoundError
  end.

(** The parsers pandas brings: the number a text denotes for
    [pd.to_numeric] (if any), the text [astype("string")] prints for a
    number, and the calendar year of the date [pd.to_datetime] reads in a
    cell (if any). *)
Class Pandas := {
  parse_num : string → option Qc;
  num_repr : Qc → string;
  to_datetime_year : cell → option Z
}.

Section Pipeline.

Context `{!Pandas}.

(** [pd.to_numeric(..., errors="coerce")] *)
Definition to_numeric (c : cell) : cell :=
  match c with
  | CStr s => from_option CNum CNull (parse_num s)
  | _ => c
  end.

(** [Series.astype("string")] *)
Definition astype_string (c : cell) : cell :=
  match c with
  | CNum q => CStr (num_repr q)
  | _ => c
  end.

(** ** [read_owid_csv] (lines 22-48), on the frame [pd.read_csv(path)] gave *)

Definition owid_keys : list string := ["Entity"; "Code"; "Year"].

(** Lines 33-37: the first label, scanning [df.columns[::-1]], that is not
    one of the three key labels. *)
Fixpoint first_non_key (cols : list string) : option string :=
  match cols with
  | [] => None
  | c :: cs => if decide (c ∈ owid_keys) then first_non_key cs else Some c
  end.

Definition detect_value_col (cols : list string) : option string :=
  first_non_key (reverse cols).

(** Lines 28-30 *)
Definition ensure_code (df : DataFrame) : DataFrame :=
  if decide ("Code" ∈ columns df) then df else assign "Code" (λ _, CNull) df.

Definition owid_renaming (value_col value_name : string) : list (string * string) :=
  [("Entity", "country"); ("Code", "iso3"); ("Year", "year"); (value_col, value_name)].

Definition canonical_labels (value_name : string) : list string :=
  ["iso3"; "country"; "year"; value_name].

Definition read_owid_csv (df : DataFrame) (value_name : string) : result DataFrame :=
  if decide ("Entity" ∉ columns df ∨ "Year" ∉ columns df) then Raise ValueError
  else
    let df := ensure_code df in
    match detect_value_col (columns df) with
    | None => Raise ValueError
    | Some value_col =>
        let df := rename (owid_renaming value_col value_name) df in
        y ← column_of TypeError "year" df;
        let df := map_column y to_numeric df in
        let df := filter_rows (λ r, between START_YEAR END_YEAR (cell_at y r)) df in
        c ← column_of AttributeError "iso3" df;
        let df := map_column c astype_string df in
        let df := filter_rows (λ r, str_match_iso3 (cell_at c r)) df in
        v ← column_of TypeError value_name df;
        let df := map_column v to_numeric df in
        Ok (select (canonical_labels value_name) df)
    end.

(** *** Vocabulary for the properties of [read_owid_csv] *)

(** The labels after lines 28-41. *)
Definition owid_labels (df : DataFrame) (value_col value_name : string) : list string :=
  rename_label (owid_renaming value_col value_name) <$> columns (ensure_code df).

(** A source row passes lines 43 and 46. *)
Definition owid_keep (y c : nat) (r : list cell) : Prop :=
  between START_YEAR END_YEAR (to_numeric (cell_at y r)) ∧
  str_match_iso3 (astype_string (cell_at c r)).

(** The canonical row made of a source row. *)
Definition owid_row (y c v : nat) (ns : list nat) (r : list cell) : list cell :=
  astype_string (cell_at c r) :: ((λ i, cell_at i r) <$> ns) ++
  [to_numeric (cell_at y r); to_numeric (cell_at v r)].

(** The label [c] is borne by one column. *)
Definition one_column (c : string) (cols : list string) : Prop :=
  ∃ i, label_positions c cols = [i].

(** Renaming leaves one of the labels the function reads as a Series on
    two columns (or on none). *)
Definition label_clash (df : DataFrame) (value_name : string) : Prop :=
  ∃ value_col,
    detect_value_col (columns (ensure_code df)) = Some value_col ∧
    ¬ (one_column "year" (owid_labels df value_col value_name) ∧
       one_column "iso3" (owid_labels df value_col value_name) ∧
       one_column value_name (owid_labels df value_col value_name)).

(** ** [load_country_temp_anom] (lines 57-83), on the frame of line 59 *)

Definition temp_needed : list string :=
  ["Entity"; "Code"; "Day"; "Temperature anomaly"].

Definition temp_renaming : list (string * string) :=
  [("Entity", "country"); ("Code", "iso3");
   ("Temperature anomaly", "temp_anom"); ("Day", "day")].

(** Lines 71-72: the year of the parsed day, null when the day is no date.
    The parsed day itself is kept nowhere in the result. *)
Definition year_of_day (c : cell) : cell :=
  from_option (λ z, CNum (Qc_of_Z z)) CNull (to_datetime_year c).

(** Lines 61-76: the key and the anomaly of every row that passes the two
    filters. *)
Definition temp_observations (df : DataFrame) : result (list (key * cell)) :=
  if decide (temp_needed ⊆ columns df) then
    let df := rename temp_renaming df in
    d ← column_of ValueError "day" df;
    let df := assign "year" (λ r, year_of_day (cell_at d r)) df in
    y ← column_of AttributeError "year" df;
    let df := filter_rows (λ r, between START_YEAR END_YEAR (cell_at y r)) df in
    c ← column_of AttributeError "iso3" df;
    let df := map_column c astype_string df in
    let df := filter_rows (λ r, str_match_iso3 (cell_at c r)) df in
    t ← column_of TypeError "temp_anom" df;
    let df := map_column t to_numeric df in
    n ← column_of ValueError "country" df;
    Ok ((λ r, ((cell_at c r, cell_at n r, cell_at y r), cell_at t r)) <$> rows df)
  else Raise ValueError.

(** Lines 79-83 *)
Definition load_country_temp_anom (df : DataFrame) : result DataFrame :=
  obs ← temp_observations df;
  Ok {| columns := ["iso3"; "country"; "year"; "temp_anom"];
        rows := (λ g, key_cells g.1 ++ [g.2]) <$> groupby_mean obs |}.

(** *** Vocabulary for the properties of [load_country_temp_anom] *)

(** The row lines 71-72 make of a source row: the year of its day is
    appended ([fresh]) or written at position [y]. *)
Definition annual_row (d : nat) (fresh : bool) (y : nat) (r : list cell) : list cell :=
  if fresh then r ++ [year_of_day (cell_at d r)]
  else <[y := year_of_day (cell_at d r)]> r.


(** ** [export_global_temp_monthly] (lines 86-105), on the frame of line 88;
    the result is the frame line 104 writes to [GLOBAL_TEMP_OUT]. *)

Definition global_needed : list string := ["Entity"; "Year"; "Temperature anomaly"].

Definition global_renaming : list (string * string) :=
  [("Entity", "month"); ("Year", "year"); ("Temperature anomaly", "temp_anom")].

Definition month_order : list string :=
  ["January"; "February"; "March"; "April"; "May"; "June"; "July"; "August";
   "September"; "October"; "November"; "December"].

(** [order_map = {m: i+1 for i, m in enumerate(month_order)}] *)
Definition order_map (m : string) : option nat :=
  (λ p, S p.1) <$> list_find (λ m', m' = m) month_order.

(** [Series.map(order_map)]: a cell that is no key of the dict maps to null. *)
Definition month_idx (c : cell) : cell :=
  match c with
  | CStr m => from_option (λ i, CNum (Qc_of_Z (Z.of_nat i))) CNull (order_map m)
  | _ => CNull
  end.

Definition export_global_temp_monthly (df : DataFrame) : result DataFrame :=
  if decide (global_needed ⊆ columns df) then
    let df := rename global_renaming df in
    y ← column_of TypeError "year" df;
    let df := map_column y to_numeric df in
    let df := filter_rows (λ r, between START_YEAR END_YEAR (cell_at y r)) df in
    t ← column_of TypeError "temp_anom" df;
    let df := map_column t to_numeric df in
    m ← column_of AttributeError "month" df;
    let df := assign "month_idx" (λ r, month_idx (cell_at m r)) df in
    i ← column_of ValueError "month_idx" df;
    let df := filter_rows (λ r, notna (cell_at i r)) df in
    sort_values ["year"; "month_idx"] df
  else Raise ValueError.

(** *** Vocabulary for the properties of the export *)

(** The row line 102 makes of a row that passed the year filter: the
    month index is appended ([fresh]) or written at position [i]. *)
Definition monthly_row (y t m : nat) (fresh : bool) (i : nat)
    (r : list cell) : list cell :=
  let r3 := alter to_numeric t (alter to_numeric y r) in
  if fresh then r3 ++ [month_idx (cell_at m r3)]
  else <[i := month_idx (cell_at m r3)]> r3.

(** The labels [export_global_temp_monthly] accepts. *)
Definition monthly_labels_ok (cols : list string) : Prop :=
  global_needed ⊆ cols ∧
  let L := rename_label global_renaming <$> cols in
  one_column "year" L ∧ one_column "temp_anom" L ∧ one_column "month" L ∧
  (length (label_positions "month_idx" L) ≤ 1)%nat.

(** ** [main] (lines 108-160)

    The result of a run is the list of files written, in order, and the
    outcome: [Ok ()] or the exception that ended the run.  Console messages
    and the creation of the output directory are left out. *)

Definition OUT_FILE : string := "core_merged.csv".
Definition GLOBAL_TEMP_OUT : string := "global_temp_monthly.csv".

(** Lines 147-150 *)
Definition merge_indicators (co2 energy water sanit gdp : DataFrame) : result DataFrame :=
  df ← merge co2 energy Outer;
  df ← merge df water Outer;
  df ← merge df sanit Outer;
  merge df gdp Outer.

(** Lines 152-153 *)
Definition attach_temp (df : DataFrame) (temp : option DataFrame) : result DataFrame :=
  match temp with
  | Some t => merge df t Left
  | None => Ok df
  end.

(** Lines 147-155: the frame line 157 writes to [OUT_FILE]. *)
Definition master_table (co2 energy water sanit gdp : DataFrame)
    (temp : option DataFrame) : result DataFrame :=
  df ← merge_indicators co2 energy water sanit gdp;
  df ← attach_temp df temp;
  sort_values ["iso3"; "year"] df.

(** One of the five loads of lines 123-127. *)
Definition load_indicator (fs : FileSystem) (path value_name : string)
    : result DataFrame :=
  pd_read_csv fs path ≫= (λ df, read_owid_csv df value_name).

(** Lines 123-127 *)
Definition load_indicators (fs : FileSystem) (co2_path energy_path water_path
    sanit_path gdp_path : string)
    : result (DataFrame * DataFrame * DataFrame * DataFrame * DataFrame) :=
  co2 ← load_indicator fs co2_path "co2_pc";
  energy ← load_indicator fs energy_path "energy_pc";
  water ← load_indicator fs water_path "water_basic_pct";
  sanit ← load_indicator fs sanit_path "sanitation_pct";
  gdp ← load_indicator fs gdp_path "gdp_pc";
  Ok (co2, energy, water, sanit, gdp).

Definition temp_zip : string := "monthly-temperature-anomalies.zip".
Definition global_temp_zip : string := "global-temperature-anomalies-by-month.zip".

(** Lines 130-136: [try ... except Exception] turns any exception of the
    loader into [temp = None]. *)
Definition load_temp (fs : FileSystem) : option DataFrame :=
  if exists_ fs temp_zip then
    match read_zip_csv fs temp_zip "monthly-temperature-anomalies.csv"
          ≫= load_country_temp_anom with
    | Ok t => Some t
    | Raise _ => None
    end
  else None.

(** Lines 139-144: the files the optional global export writes. *)
Definition export_global (fs : FileSystem) : list (string * DataFrame) :=
  if exists_ fs global_temp_zip then
    match read_zip_csv fs global_temp_zip "global-temperature-anomalies-by-month.csv"
          ≫= export_global_temp_monthly with
    | Ok g => [(GLOBAL_TEMP_OUT, g)]
    | Raise _ => []
    end
  else [].

(** Lines 110-117: the names each required file may have. *)
Definition co2_names : list string :=
  ["co-emissions-per-capita.csv"; "co2-emissions-per-capita.csv"].
Definition energy_names : list string := ["per-capita-energy-use.csv"].
Definition water_names : list string :=
  ["population-using-at-least-basic-drinking-water.csv"].
Definition sanit_names : list string :=
  ["share-of-population-with-improved-sanitation-facilities.csv";
   "share-of-population-with-improved-sanitation-faciltities.csv"].
Definition gdp_names : list string :=
  ["gdp-per-capita-maddison-project-database.csv"].

Definition main (fs : FileSystem) : list (string * DataFrame) * result () :=
  let co2_path := find_first_existing fs co2_names in
  let energy_path := find_first_existing fs energy_names in
  let water_path := find_first_existing fs water_names in
  let sanit_path := find_first_existing fs sanit_names in
  let gdp_path := find_first_existing fs gdp_names in
  match co2_path, energy_path, water_path, sanit_path, gdp_path with
  | Some p1, Some p2, Some p3, Some p4, Some p5 =>
      match load_indicators fs p1 p2 p3 p4 p5 with
      | Raise e => ([], Raise e)
      | Ok (co2, energy, water, sanit, gdp) =>
          let temp := load_temp fs in
          let written := export_global fs in
          match master_table co2 energy water sanit gdp temp with
          | Raise e => (written, Raise e)
          | Ok df => (written ++ [(OUT_FILE, df)], Ok ())
          end
      end
  | _, _, _, _, _ => ([], Raise FileNotFoundError)
  end.

End Pipeline.

(** The labels of a canonical frame, renamed back to those of a source. *)
Definition canonical_to_owid : list (string * string) :=
  [("country", "Entity"); ("iso3", "Code"); ("year", "Year")].

(** ** Example data

    A small instance of the parsers, to run the functions on examples: a
    text of decimal digits denotes that number, a number prints as its
    numerator over its denominator, and a text that starts with four
    digits is a date of that year. *)

Fixpoint digits_value (s : string) (acc : N) : option N :=
  match s with
  | EmptyString => Some acc
  | String a s' =>
      let n := N_of_ascii a in
      if (48 <=? n)%N && (n <=? 57)%N
      then digits_value s' (10 * acc + (n - 48))%N
      else None
  end.

Definition plain_number (s : string) : option Qc :=
  if decide (s = "") then None
  else (λ n, Qc_of_Z (Z.of_N n)) <$> digits_value s 0.

Definition plain_repr (q : Qc) : string :=
  pretty (Qnum q) +:+ "/" +:+ pretty (Zpos (Qden q)).

Definition plain_year (c : cell) : option Z :=
  match c with
  | CStr s =>
      if decide (4 ≤ String.length s)%nat
      then Z.of_N <$> digits_value (substring 0 4 s) 0
      else None
  | _ => None
  end.

Global Instance plain_pandas : Pandas :=
  {| parse_num := plain_number;
     num_repr := plain_repr;
     to_datetime_year := plain_year |}.

Definition from_ok {A} (d : A) (m : result A) : A :=
  match m with Ok a => a | Raise _ => d end.

Definition no_frame : DataFrame := {| columns := []; rows := [] |}.

Definition owid_frame (value_col : string) (rs : list (list cell)) : DataFrame :=
  {| columns := ["Entity"; "Code"; "Year"; value_col]; rows := rs |}.

(** The rows of the example of the specification, and three that a filter
    drops. *)
Definition demo_df : DataFrame :=
  owid_frame "Value"
    [ [CStr "Testland"; CStr "TST"; CNum (Qc_of_Z 2010); CStr "55"];
      [CStr "Testland"; CStr "T1"; CNum (Qc_of_Z 2010); CStr "55"];
      [CStr "Testland"; CStr "TST"; CNum (Qc_of_Z 1999); CStr "55"];
      [CStr "Testland"; CStr "TST"; CStr "x"; CStr "55"] ].

Definition demo_out : DataFrame :=
  Eval vm_compute in from_ok no_frame (read_owid_csv demo_df "co2_pc").

(** A source whose code cell is a quoted field that ends in a line feed. *)
Definition newline_df : DataFrame :=
  owid_frame "Value"
    [ [CStr "Testland"; CStr ("USA" +:+ line_feed); CNum (Qc_of_Z 2010);
       CNum (Qc_of_Z 55)] ].

(** A source with a column already named [year]. *)
Definition clash_df : DataFrame :=
  {| columns := ["Entity"; "Code"; "Year"; "year"; "Value"];
     rows := [ [CStr "Testland"; CStr "TST"; CNum (Qc_of_Z 2010);
                CNum (Qc_of_Z 1); CNum (Qc_of_Z 5)] ] |}.

(** Sources without a [Code] column. *)
Definition nocode_df : DataFrame :=
  {| columns := ["Entity"; "Year"; "Value"];
     rows := [ [CStr "World"; CNum (Qc_of_Z 2010); CNum (Qc_of_Z 5)] ] |}.

Definition nocode_clash_df : DataFrame :=
  {| columns := ["Entity"; "Year"; "year"; "Value"];
     rows := [ [CStr "World"; CNum (Qc_of_Z 2010); CNum (Qc_of_Z 1);
                CNum (Qc_of_Z 5)] ] |}.

(** Five indicator sources: only the first and the last have (USA, 2015). *)
Definition usa (v : Z) : list cell :=
  [CStr "United States"; CStr "USA"; CNum (Qc_of_Z 2015); CNum (Qc_of_Z v)].
Definition fra (v : Z) : list cell :=
  [CStr "France"; CStr "FRA"; CNum (Qc_of_Z 2015); CNum (Qc_of_Z v)].

Definition raw_co2 : DataFrame := owid_frame "co2" [usa 15; fra 5; usa 16].
Definition raw_energy : DataFrame := owid_frame "energy" [fra 40].
Definition raw_water : DataFrame := owid_frame "water" [].
Definition raw_sanit : DataFrame := owid_frame "sanitation" [].
Definition raw_gdp : DataFrame := owid_frame "gdp" [usa 60].

Definition demo_co2 : DataFrame :=
  Eval vm_compute in from_ok no_frame (read_owid_csv raw_co2 "co2_pc").
Definition demo_energy : DataFrame :=
  Eval vm_compute in from_ok no_frame (read_owid_csv raw_energy "energy_pc").
Definition demo_water : DataFrame :=
  Eval vm_compute in from_ok no_frame (read_owid_csv raw_water "water_basic_pct").
Definition demo_sanit : DataFrame :=
  Eval vm_compute in from_ok no_frame (read_owid_csv raw_sanit "sanitation_pct").
Definition demo_gdp : DataFrame :=
  Eval vm_compute in from_ok no_frame (read_owid_csv raw_gdp "gdp_pc").


(** The frame of the example: two daily rows of [TST] in 2010. *)
Definition two_days (d1 d2 : cell) : DataFrame :=
  {| columns := ["Entity"; "Code"; "Day"; "Temperature anomaly"];
     rows := [ [CStr "Testland"; CStr "TST"; d1; CNum (Qc_of_Z 1)];
               [CStr "Testland"; CStr "TST"; d2; CNum (Qc_of_Z 3)] ] |}.

(** Daily anomalies of France and of a country no indicator source has. *)
Definition raw_temp : DataFrame :=
  {| columns := ["Entity"; "Code"; "Day"; "Temperature anomaly"];
     rows := [ [CStr "France"; CStr "FRA"; CStr "2015-01-01"; CNum (Qc_of_Z 1)];
               [CStr "France"; CStr "FRA"; CStr "2015-01-02"; CNum (Qc_of_Z 3)];
               [CStr "Testland"; CStr "TST"; CStr "2015-01-01"; CNull] ] |}.

Definition demo_temp : DataFrame :=
  Eval vm_compute in from_ok no_frame (load_country_temp_anom raw_temp).

Definition demo_master : DataFrame :=
  Eval vm_compute in
    from_ok no_frame
      (master_table demo_co2 demo_energy demo_water demo_sanit demo_gdp
         (Some demo_temp)).

(** Global monthly sources: one with a month spelled in lower case, one
    with January 2010 twice. *)
Definition monthly_frame (rs : list (list cell)) : DataFrame :=
  {| columns := ["Entity"; "Year"; "Temperature anomaly"]; rows := rs |}.

Definition raw_monthly : DataFrame :=
  monthly_frame
    [ [CStr "March"; CNum (Qc_of_Z 2010); CNum (Qc_of_Z 1)];
      [CStr "January"; CNum (Qc_of_Z 2011); CNull];
      [CStr "january"; CNum (Qc_of_Z 2010); CNum (Qc_of_Z 2)];
      [CStr "December"; CNum (Qc_of_Z 2010); CNum (Qc_of_Z 3)] ].

Definition demo_monthly : DataFrame :=
  Eval vm_compute in from_ok no_frame (export_global_temp_monthly raw_monthly).

Definition twice_january : DataFrame :=
  monthly_frame
    [ [CStr "January"; CNum (Qc_of_Z 2010); CNum (Qc_of_Z 1)];
      [CStr "January"; CNum (Qc_of_Z 2010); CNum (Qc_of_Z 2)] ].

Definition january_out : DataFrame :=
  Eval vm_compute in from_ok no_frame (export_global_temp_monthly twice_january).

(** Indicator sources with one row per key. *)
Definition raw_co2_once : DataFrame := owid_frame "co2" [usa 15; fra 5].

Definition demo_co2_once : DataFrame :=
  Eval vm_compute in from_ok no_frame (read_owid_csv raw_co2_once "co2_pc").

Definition demo_master_once : DataFrame :=
  Eval vm_compute in
    from_ok no_frame
      (master_table demo_co2_once demo_energy demo_water demo_sanit demo_gdp
         (Some demo_temp)).


(** * Properties *)


(** Membership in a list that is written out. *)
Ltac solve_elem :=
  repeat first [apply list_elem_of_here | apply list_elem_of_further].

(** ** Rows and labels *)

Lemma cell_at_alter_eq (f : cell → cell) i r :
  f CNull = CNull → cell_at i (alter f i r) = f (cell_at i r).
Proof.
  intros Hf. unfold cell_at. rewrite list_lookup_alter_eq.
  destruct (r !! i); simpl; congruence.
Qed.

Lemma cell_at_alter_ne (f : cell → cell) i j r :
  i ≠ j → cell_at j (alter f i r) = cell_at j r.
Proof. intros Hij. unfold cell_at. by rewrite list_lookup_alter_ne. Qed.

Lemma positions_from_spec n c cols i :
  i ∈ positions_from n c cols ↔ (n ≤ i)%nat ∧ cols !! (i - n) = Some c.
Proof.
  revert n. induction cols as [|c' cs IH]; intros n; simpl.
  - split; [by intros ?%elem_of_nil | by intros [_ ?]].
  - assert (Hs : ∀ m, (S n ≤ m)%nat → m - n = S (m - S n)) by lia.
    destruct (decide (c' = c)) as [->|Hne].
    + rewrite elem_of_cons, IH. split.
      * intros [->|[Hle Hl]].
        -- split; [lia|]. by replace (n - n) with 0 by lia.
        -- split; [lia|]. by rewrite Hs.
      * intros [Hle Hl]. destruct (decide (i = n)) as [->|Hin]; [by left|].
        right. split; [lia|]. rewrite Hs in Hl by lia. done.
    + rewrite IH. split.
      * intros [Hle Hl]. split; [lia|]. by rewrite Hs.
      * intros [Hle Hl]. destruct (decide (i = n)) as [->|Hin].
        -- replace (n - n) with 0 in Hl by lia. simpl in Hl. congruence.
        -- split; [lia|]. rewrite Hs in Hl by lia. done.
Qed.

Lemma label_positions_spec c cols i :
  i ∈ label_positions c cols ↔ cols !! i = Some c.
Proof.
  unfold label_positions. rewrite positions_from_spec.
  replace (i - 0) with i by lia. intuition lia.
Qed.

Lemma label_positions_nil c cols :
  label_positions c cols = [] ↔ c ∉ cols.
Proof.
  split.
  - intros Hnil [i Hi]%list_elem_of_lookup.
    apply label_positions_spec in Hi. rewrite Hnil in Hi. by apply elem_of_nil in Hi.
  - intros Hc. destruct (label_positions c cols) as [|i l] eqn:E; [done|].
    exfalso. apply Hc. apply list_elem_of_lookup. exists i.
    apply label_positions_spec. rewrite E. left.
Qed.

Lemma label_positions_ne a b cols i j :
  a ≠ b → label_positions a cols = [i] → label_positions b cols = [j] → i ≠ j.
Proof.
  intros Hab Ha Hb ->.
  assert (cols !! j = Some a) by (apply label_positions_spec; rewrite Ha; left).
  assert (cols !! j = Some b) by (apply label_positions_spec; rewrite Hb; left).
  congruence.
Qed.

Lemma column_of_Ok e c df i :
  column_of e c df = Ok i ↔ label_positions c (columns df) = [i].
Proof.
  unfold column_of. destruct (label_positions c (columns df)) as [|j [|k l]];
    naive_solver.
Qed.

Lemma column_of_columns e c df df' :
  columns df = columns df' → column_of e c df = column_of e c df'.
Proof. unfold column_of. by intros ->. Qed.

Lemma filter_fmap_comm {A B} (f : A → B) (P : B → Prop) `{!∀ x, Decision (P x)}
    (l : list A) :
  filter P (f <$> l) = f <$> filter (λ x, P (f x)) l.
Proof.
  induction l as [|x l IH]; [done|]. rewrite fmap_cons, !filter_cons.
  destruct (decide (P (f x))); by rewrite IH.
Qed.

Lemma filter_ext_in {A} (P Q : A → Prop) `{!∀ x, Decision (P x)}
    `{!∀ x, Decision (Q x)} (l : list A) :
  (∀ x, x ∈ l → P x ↔ Q x) → filter P l = filter Q l.
Proof.
  induction l as [|x l IH]; intros Hl; [done|]. rewrite !filter_cons.
  rewrite IH by (intros y Hy; apply Hl; by right).
  destruct (decide (P x)) as [HP|HP], (decide (Q x)) as [HQ|HQ]; try done.
  - destruct HQ. apply Hl; [left | done].
  - destruct HP. apply Hl; [left | done].
Qed.

Lemma filter_none {A} (P : A → Prop) `{!∀ x, Decision (P x)} (l : list A) :
  (∀ x, x ∈ l → ¬ P x) → filter P l = [].
Proof.
  induction l as [|x l IH]; intros Hl; [done|].
  rewrite filter_cons_False by (apply Hl; left).
  apply IH. intros y Hy. apply Hl. by right.
Qed.

Lemma filter_all {A} (P : A → Prop) `{!∀ x, Decision (P x)} (l : list A) :
  (∀ x, x ∈ l → P x) → filter P l = l.
Proof.
  induction l as [|x l IH]; intros Hl; [done|].
  rewrite filter_cons_True by (apply Hl; left).
  f_equal. apply IH. intros y Hy. apply Hl. by right.
Qed.

Lemma fmap_id_on {A} (f : A → A) (l : list A) :
  (∀ x, x ∈ l → f x = x) → f <$> l = l.
Proof.
  induction l as [|x l IH]; intros Hl; [done|]. simpl. f_equal.
  - apply Hl. left.
  - apply IH. intros y Hy. apply Hl. by right.
Qed.

Lemma positions_from_app k c l1 l2 :
  positions_from k c (l1 ++ l2) =
  positions_from k c l1 ++ positions_from (k + length l1) c l2.
Proof.
  revert k. induction l1 as [|x l1 IH]; intros k; simpl.
  - by rewrite Nat.add_0_r.
  - rewrite IH. replace (S k + length l1) with (k + S (length l1)) by lia.
    by destruct (decide (x = c)).
Qed.

Lemma positions_from_replicate_eq k c n :
  positions_from k c (replicate n c) = seq k n.
Proof.
  revert k. induction n as [|n IH]; intros k; simpl; [done|].
  by rewrite decide_True, IH.
Qed.

Lemma positions_from_replicate_ne k c c' n :
  c' ≠ c → positions_from k c (replicate n c') = [].
Proof.
  intros Hc. revert k. induction n as [|n IH]; intros k; simpl; [done|].
  by rewrite decide_False, IH.
Qed.

Lemma cells_at_middle a (cs post : list cell) :
  (λ i, cell_at i (a :: cs ++ post)) <$> seq 1 (length cs) = cs.
Proof.
  apply list_eq. intros i. rewrite list_lookup_fmap.
  destruct (decide (i < length cs)%nat) as [Hi|Hi].
  - rewrite lookup_seq_lt by done. simpl. unfold cell_at. simpl.
    rewrite lookup_app_l by done.
    destruct (lookup_lt_is_Some_2 cs i Hi) as [x Hx]. by rewrite Hx.
  - rewrite lookup_seq_ge by lia. simpl. symmetry. apply lookup_ge_None_2. lia.
Qed.

Lemma cell_at_after a (cs : list cell) x y n :
  length cs = n →
  cell_at (S n) (a :: cs ++ [x; y]) = x ∧ cell_at (S (S n)) (a :: cs ++ [x; y]) = y.
Proof.
  intros <-. unfold cell_at. simpl.
  rewrite !lookup_app_r by lia.
  rewrite Nat.sub_diag. by replace (S (length cs) - length cs) with 1 by lia.
Qed.

Section Properties.

Context `{!Pandas}.

Lemma to_numeric_null : to_numeric CNull = CNull.
Proof. done. Qed.

Lemma astype_string_null : astype_string CNull = CNull.
Proof. done. Qed.

Lemma to_numeric_idemp c : to_numeric (to_numeric c) = to_numeric c.
Proof. destruct c as [| |s]; try done. simpl. by destruct (parse_num s). Qed.

(** ** The shape of a successful [read_owid_csv] *)

Lemma label_positions_unique c cols i j :
  label_positions c cols = [i] → cols !! j = Some c → j = i.
Proof.
  intros Hi Hj. apply label_positions_spec in Hj. rewrite Hi in Hj.
  by apply list_elem_of_singleton in Hj.
Qed.

Lemma first_non_key_Some cols c :
  first_non_key cols = Some c → c ∈ cols ∧ c ∉ owid_keys.
Proof.
  induction cols as [|c' cs IH]; simpl; [done|].
  destruct (decide (c' ∈ owid_keys)).
  - intros [? ?]%IH. split; [by right | done].
  - intros [= <-]. split; [left | done].
Qed.

Lemma first_non_key_None cols :
  first_non_key cols = None ↔ ∀ c, c ∈ cols → c ∈ owid_keys.
Proof.
  induction cols as [|c' cs IH]; simpl.
  - split; [by intros _ c ?%elem_of_nil | done].
  - destruct (decide (c' ∈ owid_keys)).
    + rewrite IH. split.
      * intros Hcs c [->|?]%elem_of_cons; auto.
      * intros Hcs c Hc. apply Hcs. by right.
    + split; [done|]. intros Hcs. exfalso. apply n, Hcs. left.
Qed.

Lemma detect_value_col_Some cols c :
  detect_value_col cols = Some c → c ∈ cols ∧ c ∉ owid_keys.
Proof.
  unfold detect_value_col. intros [Hc ?]%first_non_key_Some.
  split; [by apply elem_of_reverse | done].
Qed.

Lemma ensure_code_columns df :
  columns (ensure_code df) =
  if decide ("Code" ∈ columns df) then columns df else columns df ++ ["Code"].
Proof.
  unfold ensure_code. destruct (decide _) as [|Hn]; [done|].
  unfold assign. apply label_positions_nil in Hn. by rewrite Hn.
Qed.

Lemma ensure_code_has_code df : "Code" ∈ columns (ensure_code df).
Proof.
  rewrite ensure_code_columns. destruct (decide _); [done|].
  apply elem_of_app. right. left.
Qed.

Lemma ensure_code_incl df c : c ∈ columns df → c ∈ columns (ensure_code df).
Proof.
  rewrite ensure_code_columns. destruct (decide _); [done|].
  intros ?. apply elem_of_app. by left.
Qed.

Lemma rename_label_owid vc vn c :
  vc ∉ owid_keys →
  rename_label (owid_renaming vc vn) c =
    if decide (c = "Entity") then "country"
    else if decide (c = "Code") then "iso3"
    else if decide (c = "Year") then "year"
    else if decide (c = vc) then vn else c.
Proof.
  intros Hvc. unfold rename_label, owid_renaming. simpl.
  repeat (destruct (decide _) as [<-|?]; simpl; [try done|]);
    try (destruct (decide _); [congruence | done]).
  all: repeat (destruct (decide _) as [?|?]; try congruence). 
Qed.

Lemma singleton_label_inj (f : string → string) cols L i a b :
  label_positions L (f <$> cols) = [i] →
  a ∈ cols → b ∈ cols → f a = L → f b = L → a = b.
Proof.
  intros Hi [p Hp]%list_elem_of_lookup [q Hq]%list_elem_of_lookup Ha Hb.
  assert (p = i).
  { apply (label_positions_unique L (f <$> cols)); [done|].
    by rewrite list_lookup_fmap, Hp, <-Ha. }
  assert (q = i).
  { apply (label_positions_unique L (f <$> cols)); [done|].
    by rewrite list_lookup_fmap, Hq, <-Hb. }
  congruence.
Qed.

(** On success the target name is none of the three key names: the value
    column and a key column would bear the same label. *)
Lemma owid_value_name_fresh df vc vn y c v :
  "Entity" ∈ columns df → "Year" ∈ columns df →
  detect_value_col (columns (ensure_code df)) = Some vc →
  label_positions "year" (owid_labels df vc vn) = [y] →
  label_positions "iso3" (owid_labels df vc vn) = [c] →
  label_positions vn (owid_labels df vc vn) = [v] →
  vn ∉ key_labels.
Proof.
  intros HE%ensure_code_incl HY%ensure_code_incl [Hin Hk]%detect_value_col_Some
    Hy Hc Hv.
  pose proof (ensure_code_has_code df) as HC.
  assert (Hvc : rename_label (owid_renaming vc vn) vc = vn).
  { rewrite rename_label_owid by done.
    rewrite !decide_False by (intros ->; apply Hk; solve_elem).
    by rewrite decide_True. }
  unfold key_labels. intros Hvn.
  apply elem_of_cons in Hvn as [->|Hvn]; [|apply elem_of_cons in Hvn as [->|Hvn];
    [|apply list_elem_of_singleton in Hvn as ->]].
  - apply Hk. rewrite <-(singleton_label_inj _ _ _ _ "Code" vc Hc HC Hin); [|done..].
    solve_elem.
  - apply Hk. rewrite <-(singleton_label_inj _ _ _ _ "Entity" vc Hv HE Hin); [|done..].
    solve_elem.
  - apply Hk. rewrite <-(singleton_label_inj _ _ _ _ "Year" vc Hy HY Hin); [|done..].
    solve_elem.
Qed.

Lemma read_owid_csv_inv df value_name out :
  read_owid_csv df value_name = Ok out →
  ∃ value_col y c v,
    "Entity" ∈ columns df ∧ "Year" ∈ columns df ∧
    detect_value_col (columns (ensure_code df)) = Some value_col ∧
    label_positions "year" (owid_labels df value_col value_name) = [y] ∧
    label_positions "iso3" (owid_labels df value_col value_name) = [c] ∧
    label_positions value_name (owid_labels df value_col value_name) = [v] ∧
    let ns := label_positions "country" (owid_labels df value_col value_name) in
    out = {| columns := "iso3" :: ((λ _, "country") <$> ns) ++ ["year"; value_name];
             rows := owid_row y c v ns <$> filter (owid_keep y c) (rows (ensure_code df)) |}.
Proof.
  unfold read_owid_csv.
  destruct (decide _) as [|Hcols]; [done|].
  assert (HE : "Entity" ∈ columns df)
    by (destruct (decide ("Entity" ∈ columns df)); [done | destruct Hcols; by left]).
  assert (HY : "Year" ∈ columns df)
    by (destruct (decide ("Year" ∈ columns df)); [done | destruct Hcols; by right]).
  destruct (detect_value_col _) as [vc|] eqn:Hvc; [|done].
  set (df1 := rename _ _).
  destruct (column_of TypeError "year" df1) as [y|] eqn:Hy; [|done]. simpl.
  destruct (column_of AttributeError "iso3" _) as [c|] eqn:Hc; [|done]. simpl.
  destruct (column_of TypeError value_name _) as [v|] eqn:Hv; [|done]. simpl.
  intros [= <-]. apply column_of_Ok in Hy, Hc, Hv. simpl in Hy, Hc, Hv.
  exists vc, y, c, v. fold (owid_labels df vc value_name) in *.
  repeat (split; [done|]). simpl.
  pose proof (owid_value_name_fresh _ _ _ _ _ _ HE HY Hvc Hy Hc Hv) as Hfresh.
  assert (Hyc : y ≠ c) by (by eapply label_positions_ne; [|exact Hy|exact Hc]).
  assert (Hyv : y ≠ v).
  { eapply label_positions_ne; [|exact Hy|exact Hv].
    intros <-. apply Hfresh. solve_elem. }
  assert (Hcv : c ≠ v).
  { eapply label_positions_ne; [|exact Hc|exact Hv].
    intros <-. apply Hfresh. solve_elem. }
  set (ns := label_positions "country" (owid_labels df vc value_name)).
  assert (Hns : ∀ i, i ∈ ns → i ≠ y ∧ i ≠ c ∧ i ≠ v).
  { intros i Hi%label_positions_spec.
    assert (Hy' : owid_labels df vc value_name !! y = Some "year")
      by (apply label_positions_spec; rewrite Hy; left).
    assert (Hc' : owid_labels df vc value_name !! c = Some "iso3")
      by (apply label_positions_spec; rewrite Hc; left).
    assert (Hv' : owid_labels df vc value_name !! v = Some value_name)
      by (apply label_positions_spec; rewrite Hv; left).
    repeat split; intros ->; [congruence..|].
    apply Hfresh. assert (value_name = "country") as -> by congruence.
    solve_elem. }
  unfold select, map_column, filter_rows. simpl.
  fold (owid_labels df vc value_name).
  rewrite Hc, Hy, Hv. fold ns. simpl. f_equal.
  rewrite !filter_fmap_comm, list_filter_filter, <-!list_fmap_compose.
  erewrite list_filter_iff; [apply list_fmap_ext; intros _ r _|].
  - unfold owid_row, select_row. simpl. rewrite Hc, Hy, Hv. fold ns. simpl.
      rewrite (cell_at_alter_ne _ v c), (cell_at_alter_eq _ c),
        (cell_at_alter_ne _ y c) by done.
      rewrite (cell_at_alter_ne _ v y), (cell_at_alter_ne _ c y),
        (cell_at_alter_eq _ y) by done.
      rewrite (cell_at_alter_eq _ v), (cell_at_alter_ne _ c v),
        (cell_at_alter_ne _ y v) by done.
      f_equal. f_equal.
      apply list_fmap_ext. intros _ i Hi%list_elem_of_lookup_2.
      destruct (Hns i Hi) as (? & ? & ?).
      by rewrite !cell_at_alter_ne by done.
  - intros r. simpl. unfold owid_keep.
      rewrite (cell_at_alter_eq _ c), (cell_at_alter_ne _ y c),
        (cell_at_alter_eq _ y) by done.
      tauto.
Qed.

(** ** When [read_owid_csv] raises *)

Lemma column_of_Raise e c df e' :
  column_of e c df = Raise e' → ¬ one_column c (columns df) ∧ (e' = e ∨ e' = KeyError).
Proof.
  unfold column_of, one_column.
  destruct (label_positions c (columns df)) as [|i [|j l]]; intros [= <-];
    (split; [intros [? [=]] | auto]).
Qed.

Lemma read_owid_csv_cases df value_name :
  match read_owid_csv df value_name with
  | Ok _ =>
      "Entity" ∈ columns df ∧ "Year" ∈ columns df ∧
      ∃ vc, detect_value_col (columns (ensure_code df)) = Some vc ∧
        one_column "year" (owid_labels df vc value_name) ∧
        one_column "iso3" (owid_labels df vc value_name) ∧
        one_column value_name (owid_labels df vc value_name)
  | Raise e =>
      (e = ValueError ∧
       ("Entity" ∉ columns df ∨ "Year" ∉ columns df ∨
        detect_value_col (columns (ensure_code df)) = None)) ∨
      (e ≠ ValueError ∧ "Entity" ∈ columns df ∧ "Year" ∈ columns df ∧
       label_clash df value_name)
  end.
Proof.
  destruct (read_owid_csv df value_name) as [out|e] eqn:E.
  - apply read_owid_csv_inv in E as (vc & y & c & v & ? & ? & ? & ? & ? & ? & _).
    unfold one_column. eauto 10.
  - revert E. unfold read_owid_csv.
    destruct (decide _) as [Hcols|Hcols]; [intros [= <-]; left; tauto|].
    assert (HE : "Entity" ∈ columns df)
      by (destruct (decide ("Entity" ∈ columns df)); [done | destruct Hcols; by left]).
    assert (HY : "Year" ∈ columns df)
      by (destruct (decide ("Year" ∈ columns df)); [done | destruct Hcols; by right]).
    destruct (detect_value_col _) as [vc|] eqn:Hvc; [|intros [= <-]; left; tauto].
    intros E. right.
    assert (e ≠ ValueError ∧
            ¬ (one_column "year" (owid_labels df vc value_name) ∧
               one_column "iso3" (owid_labels df vc value_name) ∧
               one_column value_name (owid_labels df vc value_name))) as [? ?];
      [|by (repeat split; try done); exists vc].
    revert E. set (df1 := rename _ _).
    destruct (column_of TypeError "year" df1) as [y|e1] eqn:Hy; simpl.
    2:{ intros [= <-]. apply column_of_Raise in Hy as [? [->| ->]]; split; tauto || done. }
    destruct (column_of AttributeError "iso3" _) as [c|e1] eqn:Hc; simpl.
    2:{ intros [= <-]. apply column_of_Raise in Hc as [? [->| ->]]; split; tauto || done. }
    destruct (column_of TypeError value_name _) as [v|e1] eqn:Hv; simpl; [done|].
    intros [= <-]. apply column_of_Raise in Hv as [? [->| ->]]; split; tauto || done.
Qed.

Lemma read_owid_csv_raises_iff df value_name :
  raises (read_owid_csv df value_name) ↔
  "Entity" ∉ columns df ∨ "Year" ∉ columns df ∨
  detect_value_col (columns (ensure_code df)) = None ∨
  label_clash df value_name.
Proof.
  pose proof (read_owid_csv_cases df value_name) as Hc.
  destruct (read_owid_csv df value_name) as [out|e]; simpl.
  - destruct Hc as (HE & HY & vc & Hvc & H1 & H2 & H3). split; [done|].
    intros [?|[?|[Hn|(vc' & Hvc' & Hno)]]]; try done; [congruence|].
    apply Hno. by replace vc' with vc by congruence.
  - split; [intros _|done]. destruct Hc as [[_ ?]|(_ & _ & _ & ?)]; tauto.
Qed.

Lemma read_owid_csv_ValueError_iff df value_name :
  read_owid_csv df value_name = Raise ValueError ↔
  "Entity" ∉ columns df ∨ "Year" ∉ columns df ∨
  detect_value_col (columns (ensure_code df)) = None.
Proof.
  split.
  - intros E. pose proof (read_owid_csv_cases df value_name) as Hc.
    rewrite E in Hc. destruct Hc as [[_ ?]|[? _]]; done.
  - unfold read_owid_csv. intros [HE|[HY|Hn]].
    + rewrite decide_True; [done | by left].
    + rewrite decide_True; [done | by right].
    + destruct (decide _); [done|]. by rewrite Hn.
Qed.

(** Whether [read_owid_csv] raises is decided by the labels alone. *)
Lemma read_owid_csv_raises_columns df df' value_name :
  columns df = columns df' →
  raises (read_owid_csv df value_name) ↔ raises (read_owid_csv df' value_name).
Proof.
  intros Hcols. rewrite !read_owid_csv_raises_iff.
  unfold label_clash, owid_labels. by rewrite !ensure_code_columns, Hcols.
Qed.

(** ** Where the columns of the result come from *)

Lemma detect_value_col_snoc cols x :
  detect_value_col (cols ++ [x]) =
  if decide (x ∈ owid_keys) then detect_value_col cols else Some x.
Proof. unfold detect_value_col. by rewrite reverse_snoc. Qed.

Lemma detect_value_col_ensure_code df :
  detect_value_col (columns (ensure_code df)) = detect_value_col (columns df).
Proof.
  rewrite ensure_code_columns. destruct (decide _); [done|].
  rewrite detect_value_col_snoc. rewrite decide_True; [done | solve_elem].
Qed.

Lemma detect_value_col_None cols :
  detect_value_col cols = None ↔ ∀ c, c ∈ cols → c ∈ owid_keys.
Proof.
  unfold detect_value_col. rewrite first_non_key_None.
  by setoid_rewrite elem_of_reverse.
Qed.

(** The detected label is the last one, in source order, that is no key
    label. *)
Lemma detect_value_col_last cols :
  detect_value_col cols = last (filter (λ c, c ∉ owid_keys) cols).
Proof.
  induction cols as [|x cols IH] using rev_ind; [done|].
  rewrite detect_value_col_snoc, filter_app, filter_cons, filter_nil.
  destruct (decide (x ∈ owid_keys)) as [Hx|Hx].
  - rewrite decide_False by tauto. by rewrite app_nil_r.
  - rewrite decide_True by done. by rewrite last_snoc.
Qed.

Lemma detect_value_col_position cols vc :
  detect_value_col cols = Some vc →
  ∃ p, cols !! p = Some vc ∧
       ∀ j c, (p < j)%nat → cols !! j = Some c → c ∈ owid_keys.
Proof.
  induction cols as [|x cols IH] using rev_ind; [done|].
  rewrite detect_value_col_snoc. destruct (decide (x ∈ owid_keys)) as [Hx|Hx].
  - intros (p & Hp & Hlast)%IH. exists p. split.
    + by apply lookup_app_l_Some.
    + intros j c Hj Hc. apply lookup_app_Some in Hc as [Hc|[Hlen Hc]]; [by eauto|].
      apply list_lookup_singleton_Some in Hc as [_ <-]. done.
  - intros [= <-]. exists (length cols). split.
    + by rewrite lookup_app_r, Nat.sub_diag by lia.
    + intros j c Hj Hc. rewrite lookup_ge_None_2 in Hc; [done|].
      rewrite length_app. simpl. lia.
Qed.

Lemma owid_positions df vn vc y c v :
  "Entity" ∈ columns df → "Year" ∈ columns df →
  detect_value_col (columns (ensure_code df)) = Some vc →
  label_positions "year" (owid_labels df vc vn) = [y] →
  label_positions "iso3" (owid_labels df vc vn) = [c] →
  label_positions vn (owid_labels df vc vn) = [v] →
  columns (ensure_code df) !! y = Some "Year" ∧
  columns (ensure_code df) !! c = Some "Code" ∧
  columns (ensure_code df) !! v = Some vc ∧
  ∀ j c', (v < j)%nat → columns (ensure_code df) !! j = Some c' → c' ∈ owid_keys.
Proof.
  intros HE HY Hvc Hy Hc Hv.
  pose proof (detect_value_col_Some _ _ Hvc) as [_ Hk].
  assert (Hpos : ∀ a L i, a ∈ columns (ensure_code df) →
            rename_label (owid_renaming vc vn) a = L →
            label_positions L (owid_labels df vc vn) = [i] →
            columns (ensure_code df) !! i = Some a).
  { intros a L i [p Hp]%list_elem_of_lookup Ha Hi.
    replace i with p; [done|].
    apply (label_positions_unique L (owid_labels df vc vn)); [done|].
    unfold owid_labels. by rewrite list_lookup_fmap, Hp, <-Ha. }
  destruct (detect_value_col_position _ _ Hvc) as (p & Hp & Hlast).
  assert (Hvcn : rename_label (owid_renaming vc vn) vc = vn).
  { rewrite rename_label_owid by done.
    rewrite !decide_False by (intros ->; apply Hk; solve_elem).
    by rewrite decide_True. }
  assert (columns (ensure_code df) !! v = Some vc) as Hvv.
  { apply (Hpos vc vn); [by eapply list_elem_of_lookup_2 | done..]. }
  repeat split.
  - apply (Hpos "Year" "year"); [by apply ensure_code_incl | | done].
    by rewrite rename_label_owid.
  - apply (Hpos "Code" "iso3"); [apply ensure_code_has_code | | done].
    by rewrite rename_label_owid.
  - done.
  - assert (p = v) as <-; [|done].
    apply (label_positions_unique vn (owid_labels df vc vn)); [done|].
    unfold owid_labels. rewrite list_lookup_fmap, Hp. simpl. by rewrite Hvcn.
Qed.

Lemma fmap_const_replicate {A B} (b : B) (l : list A) :
  (λ _, b) <$> l = replicate (length l) b.
Proof. induction l; simpl; by f_equal. Qed.

(** ** Claims on [read_owid_csv] *)

(** What [re.match] accepts for the pattern of lines 45 and 74: three
    capital letters, alone or followed by one final line feed. *)
Lemma re_match_iso3_spec s :
  re_match_iso3 s = true ↔
  three_capitals s = true ∨
  ∃ s', s = s' +:+ line_feed ∧ three_capitals s' = true.
Proof.
  destruct s as [|a [|b [|c rest]]]; simpl.
  1-3: split; [done|]; intros [?|(s' & Heq & Hs')]; [done|];
       destruct s' as [|a' [|b' [|c' [|]]]]; by simplify_eq/=.
  split.
  - intros [Hup [->%bool_decide_eq_true | ->%bool_decide_eq_true]%orb_true_iff]
      %andb_true_iff.
    + by left.
    + right. by exists (String a (String b (String c ""))).
  - intros [H3|(s' & Heq & Hs')].
    + destruct rest; [|done]. by rewrite H3.
    + destruct s' as [|a' [|b' [|c' [|]]]]; try done.
      simpl in Hs'. cbv in Heq. simplify_eq. by rewrite Hs'.
Qed.

(** X3. Every row of a result of [read_owid_csv] has a country code that
    [re.match] accepts for [^[A-Z]{3}$], that is three capital letters alone
    or followed by one final line feed, and a numeric year between
    [START_YEAR] and [END_YEAR], both included.  The result is made of
    exactly the source rows that pass both filters (a year that is no number
    becomes null and fails the first), so the others are dropped; and no row
    can make the function raise: a frame with the same labels succeeds as
    well. *)
Theorem read_owid_csv_rows_filtered df value_name out :
  read_owid_csv df value_name = Ok out →
  (∃ n, columns out = "iso3" :: replicate n "country" ++ ["year"; value_name] ∧
     ∀ r, r ∈ rows out →
       ∃ code countries year value,
         r = CStr code :: countries ++ [CNum year; value] ∧
         length countries = n ∧
         (three_capitals code = true ∨
          ∃ s, code = s +:+ line_feed ∧ three_capitals s = true) ∧
         (START_YEAR ≤ year)%Qc ∧ (year ≤ END_YEAR)%Qc) ∧
  (∃ y c v ns,
     columns (ensure_code df) !! y = Some "Year" ∧
     columns (ensure_code df) !! c = Some "Code" ∧
     rows out = owid_row y c v ns <$> filter (owid_keep y c) (rows (ensure_code df))) ∧
  (∀ df', columns df' = columns df →
     ∃ out', read_owid_csv df' value_name = Ok out').
Proof.
  intros Hok. pose proof Hok as Hinv.
  apply read_owid_csv_inv in Hinv
    as (vc & y & c & v & HE & HY & Hvc & Hy & Hc & Hv & Hout).
  simpl in Hout. set (ns := label_positions "country" _) in Hout.
  destruct (owid_positions _ _ _ _ _ _ HE HY Hvc Hy Hc Hv) as (Hpy & Hpc & _).
  split; [|split].
  - exists (length ns). subst out. simpl. split.
    + by rewrite fmap_const_replicate.
    + intros r (r0 & -> & [[Hyear Hcode] _]%list_elem_of_filter)%list_elem_of_fmap.
      unfold owid_row.
      destruct (astype_string (cell_at c r0)) as [| |code]; try done.
      destruct (to_numeric (cell_at y r0)) as [|year|]; try done.
      exists code, ((λ i, cell_at i r0) <$> ns), year, (to_numeric (cell_at v r0)).
      simpl in Hyear, Hcode. apply bool_decide_unpack in Hyear as [? ?].
      rewrite length_fmap. split; [done|]. split; [done|].
      split; [by apply re_match_iso3_spec, Is_true_true | done].
  - exists y, c, v, ns. by subst out.
  - intros df' Hcols.
    pose proof (read_owid_csv_raises_columns df' df value_name Hcols) as Hr.
    rewrite Hok in Hr. destruct (read_owid_csv df' value_name) as [out'|e].
    + by exists out'.
    + simpl in Hr. tauto.
Qed.

Lemma ensure_code_idemp df : ensure_code (ensure_code df) = ensure_code df.
Proof.
  unfold ensure_code at 1. rewrite decide_True; [done|]. apply ensure_code_has_code.
Qed.

Lemma ensure_code_incl_inv df c :
  c ≠ "Code" → c ∈ columns (ensure_code df) → c ∈ columns df.
Proof.
  rewrite ensure_code_columns. destruct (decide _); [done|].
  intros Hc [?|Hin]%elem_of_app; [done|].
  by apply list_elem_of_singleton in Hin.
Qed.

Lemma read_owid_csv_ensure_code df value_name :
  read_owid_csv (ensure_code df) value_name = read_owid_csv df value_name.
Proof.
  unfold read_owid_csv. rewrite ensure_code_idemp.
  destruct (decide ("Entity" ∉ columns (ensure_code df) ∨ _)) as [H1|H1],
    (decide ("Entity" ∉ columns df ∨ _)) as [H2|H2]; try done.
  - destruct H2. destruct H1 as [H1|H1]; [left|right]; intros Hin;
      by apply H1, ensure_code_incl.
  - destruct H1. destruct H2 as [H2|H2]; [left|right]; intros Hin;
      by apply H2, (ensure_code_incl_inv df).
Qed.

(** C6, as amended.  The value column is the last column, in source order,
    whose label is not [Entity], [Code] or [Year]: its label is what the
    reversed scan detects, its position is the greatest one with such a
    label, and its cells, made numeric, are the value cells of the result.
    The schema error [ValueError] is raised if and only if [Entity] or
    [Year] is absent or all labels are key labels; some error is raised if
    and only if one of these holds or the renaming leaves [year], [iso3] or
    the target name on several columns.  Without a [Code] column the
    function does what it does on the frame with a [Code] column of nulls
    appended. *)
Theorem read_owid_csv_value_column df value_name :
  detect_value_col (columns (ensure_code df)) =
    last (filter (λ c, c ∉ owid_keys) (columns df)) ∧
  (∀ out, read_owid_csv df value_name = Ok out →
     ∃ y c v ns vc,
       columns df !! v = Some vc ∧ (vc ∉ owid_keys) ∧
       (∀ j c', (v < j)%nat → columns df !! j = Some c' → c' ∈ owid_keys) ∧
       rows out = owid_row y c v ns <$> filter (owid_keep y c) (rows (ensure_code df))) ∧
  (read_owid_csv df value_name = Raise ValueError ↔
     "Entity" ∉ columns df ∨ "Year" ∉ columns df ∨
     ∀ c, c ∈ columns df → c ∈ owid_keys) ∧
  (raises (read_owid_csv df value_name) ↔
     "Entity" ∉ columns df ∨ "Year" ∉ columns df ∨
     (∀ c, c ∈ columns df → c ∈ owid_keys) ∨
     label_clash df value_name) ∧
  ("Code" ∉ columns df →
     read_owid_csv df value_name =
     read_owid_csv (assign "Code" (λ _, CNull) df) value_name).
Proof.
  repeat split.
  - by rewrite detect_value_col_ensure_code, detect_value_col_last.
  - intros out Hok.
    apply read_owid_csv_inv in Hok
      as (vc & y & c & v & HE & HY & Hvc & Hy & Hc & Hv & Hout).
    simpl in Hout. set (ns := label_positions "country" _) in Hout.
    destruct (owid_positions _ _ _ _ _ _ HE HY Hvc Hy Hc Hv) as (_ & _ & Hpv & Hlast).
    pose proof (detect_value_col_Some _ _ Hvc) as [_ Hk].
    exists y, c, v, ns, vc. repeat split; [|done| |by subst out].
    + rewrite ensure_code_columns in Hpv. destruct (decide _); [done|].
      apply lookup_app_Some in Hpv as [?|[_ Hpv]]; [done|].
      apply list_lookup_singleton_Some in Hpv as [_ <-]. destruct Hk. solve_elem.
    + intros j c' Hj Hc'. apply (Hlast j c' Hj).
      rewrite ensure_code_columns. destruct (decide _); [done|].
      by apply lookup_app_l_Some.
  - rewrite read_owid_csv_ValueError_iff, detect_value_col_ensure_code,
      detect_value_col_None. tauto.
  - rewrite read_owid_csv_ValueError_iff, detect_value_col_ensure_code,
      detect_value_col_None. tauto.
  - rewrite read_owid_csv_raises_iff, detect_value_col_ensure_code,
      detect_value_col_None. tauto.
  - rewrite read_owid_csv_raises_iff, detect_value_col_ensure_code,
      detect_value_col_None. tauto.
  - intros Hcode. rewrite <-(read_owid_csv_ensure_code df).
    unfold ensure_code. by rewrite decide_False.
Qed.

(** C10, as amended.  A frame with [Entity] and [Year], a value column and
    no [Code] column, whose labels do not clash once renamed, gives an
    empty result and no error: the [Code] cell injected in every row is
    null, and a null code does not match the pattern. *)
Theorem read_owid_csv_without_code df value_name :
  frame_wf df →
  "Entity" ∈ columns df → "Year" ∈ columns df → "Code" ∉ columns df →
  (∃ c, c ∈ columns df ∧ c ∉ owid_keys) →
  ¬ label_clash df value_name →
  (∃ out, read_owid_csv df value_name = Ok out ∧ rows out = []) ∧
  (∃ c, columns (ensure_code df) !! c = Some "Code" ∧
     ∀ r, r ∈ rows (ensure_code df) →
       cell_at c r = CNull ∧ str_match_iso3 (astype_string (cell_at c r)) = false).
Proof.
  intros Hwf HE HY HC (c0 & Hc0 & Hk0) Hclash.
  assert (Hcode : ∀ r, r ∈ rows (ensure_code df) →
            cell_at (length (columns df)) r = CNull).
  { unfold ensure_code. rewrite decide_False by done. unfold assign.
    apply label_positions_nil in HC. rewrite HC. simpl.
    intros r (r0 & -> & Hr0)%list_elem_of_fmap.
    unfold frame_wf in Hwf. rewrite Forall_forall in Hwf.
    unfold cell_at. rewrite lookup_app_r by (rewrite (Hwf r0 Hr0); lia).
    by rewrite (Hwf r0 Hr0), Nat.sub_diag. }
  assert (Hpos : columns (ensure_code df) !! length (columns df) = Some "Code").
  { rewrite ensure_code_columns, decide_False by done.
    by rewrite lookup_app_r, Nat.sub_diag by lia. }
  split.
  - destruct (read_owid_csv df value_name) as [out|e] eqn:Hok.
    + exists out. split; [done|].
      apply read_owid_csv_inv in Hok
        as (vc & y & c & v & _ & _ & Hvc & Hy & Hc & Hv & ->).
      simpl. destruct (owid_positions _ _ _ _ _ _ HE HY Hvc Hy Hc Hv) as (_ & Hpc & _).
      assert (c = length (columns df)) as ->.
      { rewrite ensure_code_columns, decide_False in Hpc by done.
        apply lookup_app_Some in Hpc as [Hpc|[Hlen Hpc]].
        - destruct HC. by eapply list_elem_of_lookup_2.
        - apply list_lookup_singleton_Some in Hpc as [? _]. lia. }
      rewrite filter_none; [done|].
      intros r Hr [_ Hm]. by rewrite (Hcode r Hr) in Hm.
    + exfalso. assert (Hr : raises (read_owid_csv df value_name)) by by rewrite Hok.
      apply read_owid_csv_raises_iff in Hr as [?|[?|[Hn|?]]]; try done.
      rewrite detect_value_col_ensure_code, detect_value_col_None in Hn. auto.
  - exists (length (columns df)). split; [done|].
    intros r Hr. by rewrite (Hcode r Hr).
Qed.

Lemma read_owid_csv_intro df value_name vc y c v :
  "Entity" ∈ columns df → "Year" ∈ columns df →
  detect_value_col (columns (ensure_code df)) = Some vc →
  label_positions "year" (owid_labels df vc value_name) = [y] →
  label_positions "iso3" (owid_labels df vc value_name) = [c] →
  label_positions value_name (owid_labels df vc value_name) = [v] →
  read_owid_csv df value_name =
  Ok {| columns := "iso3" :: ((λ _, "country")
                     <$> label_positions "country" (owid_labels df vc value_name))
                   ++ ["year"; value_name];
        rows := owid_row y c v (label_positions "country" (owid_labels df vc value_name))
                <$> filter (owid_keep y c) (rows (ensure_code df)) |}.
Proof.
  intros HE HY Hvc Hy Hc Hv.
  destruct (read_owid_csv df value_name) as [out|e] eqn:Hok.
  - apply read_owid_csv_inv in Hok
      as (vc' & y' & c' & v' & _ & _ & Hvc' & Hy' & Hc' & Hv' & ->).
    simpl. assert (vc' = vc) as -> by congruence.
    assert (y' = y) as -> by congruence.
    assert (c' = c) as -> by congruence.
    assert (v' = v) as -> by congruence. done.
  - exfalso. assert (Hr : raises (read_owid_csv df value_name)) by by rewrite Hok.
    apply read_owid_csv_raises_iff in Hr as [?|[?|[?|(vc' & Hvc' & Hno)]]];
      try done; [congruence|].
    apply Hno. replace vc' with vc by congruence. unfold one_column.
    repeat split; eauto.
Qed.

(** C9, as amended.  The result of [read_owid_csv] has the canonical
    labels, so the function applied to it as it is raises the schema error
    ([Entity] and [Year] are absent).  Applied to the result with its key
    labels renamed back to [Entity], [Code] and [Year], it gives the same
    frame again: no row is dropped and no error raised. *)
Theorem read_owid_csv_idempotent df value_name out :
  read_owid_csv df value_name = Ok out →
  (∀ value_name', read_owid_csv out value_name' = Raise ValueError) ∧
  (value_name ∉ owid_keys →
   read_owid_csv (rename canonical_to_owid out) value_name = Ok out).
Proof.
  intros Hok.
  apply read_owid_csv_inv in Hok
    as (vc & y & c & v & HE & HY & Hvc & Hy & Hc & Hv & Hout).
  simpl in Hout. set (ns := label_positions "country" _) in Hout.
  pose proof (owid_value_name_fresh _ _ _ _ _ _ HE HY Hvc Hy Hc Hv) as Hfresh.
  rewrite fmap_const_replicate in Hout. set (n := length ns) in Hout.
  assert (Hvn : value_name ≠ "iso3" ∧ value_name ≠ "country" ∧ value_name ≠ "year").
  { repeat split; intros ->; apply Hfresh; solve_elem. }
  destruct Hvn as (Hv1 & Hv2 & Hv3).
  split.
  - intros vn'. apply read_owid_csv_ValueError_iff.
    destruct (decide ("Entity" ∈ columns out)) as [HEo|]; [|by left].
    destruct (decide ("Year" ∈ columns out)) as [HYo|]; [|by right; left].
    exfalso. subst out. simpl in HEo, HYo.
    assert (Hin : ∀ x, x ∈ "iso3" :: replicate n "country" ++ ["year"; value_name] →
              x = "iso3" ∨ x = "country" ∨ x = "year" ∨ x = value_name).
    { intros x [->|Hx]%elem_of_cons; [by left|].
      apply elem_of_app in Hx as [[-> _]%elem_of_replicate|Hx]; [by right; left|].
      apply elem_of_cons in Hx as [->|Hx]; [by right; right; left|].
      apply list_elem_of_singleton in Hx. by right; right; right. }
    destruct (Hin _ HEo) as [?|[?|[?|HEv]]]; try done.
    destruct (Hin _ HYo) as [?|[?|[?|HYv]]]; try done. congruence.
  - intros Hkey.
    assert (Hk : value_name ≠ "Entity" ∧ value_name ≠ "Code" ∧ value_name ≠ "Year").
    { repeat split; intros ->; apply Hkey; solve_elem. }
    destruct Hk as (Hk1 & Hk2 & Hk3).
    assert (Hn : (0 < n)%nat).
    { subst n. destruct ns as [|i l] eqn:Hns; [|simpl; lia]. exfalso.
      apply label_positions_nil in Hns. apply Hns.
      apply ensure_code_incl in HE. unfold owid_labels.
      apply list_elem_of_fmap. exists "Entity". split; [|done].
      pose proof (detect_value_col_Some _ _ Hvc) as [_ ?].
      by rewrite rename_label_owid. }
    set (F := rename canonical_to_owid out).
    assert (HF : columns F = "Code" :: replicate n "Entity" ++ ["Year"; value_name]).
    { subst F out. simpl. rewrite fmap_app, fmap_replicate. simpl.
      unfold rename_label at 1 2 3. simpl. f_equal. f_equal. f_equal. f_equal.
      unfold rename_label. simpl. by rewrite !decide_False by done. }
    assert (HFE : "Entity" ∈ columns F).
    { rewrite HF. right. apply elem_of_app. left.
      apply elem_of_replicate. split; [done | lia]. }
    assert (HFY : "Year" ∈ columns F) by (rewrite HF; right; apply elem_of_app; right; left).
    assert (HFC : ensure_code F = F).
    { unfold ensure_code. rewrite decide_True; [done|]. rewrite HF. left. }
    assert (HFv : detect_value_col (columns (ensure_code F)) = Some value_name).
    { rewrite HFC, HF. rewrite app_comm_cons.
      replace ["Year"; value_name] with (["Year"] ++ [value_name]) by done.
      rewrite app_assoc, detect_value_col_snoc. by rewrite decide_False. }
    assert (HFl : owid_labels F value_name value_name =
                  "iso3" :: replicate n "country" ++ ["year"; value_name]).
    { unfold owid_labels. rewrite HFC, HF. simpl.
      rewrite fmap_app, fmap_replicate. simpl.
      rewrite !rename_label_owid by done. simpl.
      rewrite !decide_False by done. by rewrite decide_True. }
    assert (HLy : label_positions "year" (owid_labels F value_name value_name) = [S n]).
    { rewrite HFl. unfold label_positions. simpl.
      rewrite positions_from_app, positions_from_replicate_ne by done.
      rewrite length_replicate. simpl. by rewrite decide_False by done. }
    assert (HLc : label_positions "iso3" (owid_labels F value_name value_name) = [0]).
    { rewrite HFl. unfold label_positions. simpl.
      rewrite positions_from_app, positions_from_replicate_ne by done.
      simpl. by rewrite decide_False by done. }
    assert (HLv : label_positions value_name
                    (owid_labels F value_name value_name) = [S (S n)]).
    { rewrite HFl. unfold label_positions. simpl.
      rewrite decide_False by done.
      rewrite positions_from_app, positions_from_replicate_ne by done.
      rewrite length_replicate. simpl.
      rewrite decide_False by done. by rewrite decide_True by done. }
    assert (HLn : label_positions "country"
                    (owid_labels F value_name value_name) = seq 1 n).
    { rewrite HFl. unfold label_positions. simpl.
      rewrite positions_from_app, positions_from_replicate_eq.
      rewrite length_replicate. simpl.
      rewrite decide_False by done. by rewrite app_nil_r. }
    rewrite (read_owid_csv_intro F value_name value_name (S n) 0 (S (S n)))
      by done.
    rewrite HLn, HFC, fmap_const_replicate, length_seq.
    f_equal.
    assert (Hrow : ∀ r, r ∈ rows F →
              owid_keep (S n) 0 r ∧ owid_row (S n) 0 (S (S n)) (seq 1 n) r = r).
    { subst F out. simpl.
      intros r (r0 & -> & [[Hyear Hcode] _]%list_elem_of_filter)%list_elem_of_fmap.
      unfold owid_row, owid_keep.
      destruct (astype_string (cell_at c r0)) as [| |code] eqn:Ecode; try done.
      destruct (to_numeric (cell_at y r0)) as [|year|] eqn:Eyear; try done.
      set (cs := (λ i, cell_at i r0) <$> ns).
      assert (Hlen : length cs = n) by (subst cs n; by rewrite length_fmap).
      destruct (cell_at_after (CStr code) cs (CNum year)
                  (to_numeric (cell_at v r0)) n Hlen) as [Hcy Hcv].
      fold cs. rewrite Hcy, Hcv.
      change (cell_at 0 (CStr code :: ?l)) with (CStr code).
      rewrite <-Hlen, cells_at_middle. simpl. by rewrite to_numeric_idemp. }
    rewrite filter_all by (intros r Hr; by apply Hrow).
    rewrite fmap_id_on by (intros r Hr; by apply Hrow).
    subst F. simpl. by rewrite Hout.
Qed.

End Properties.

(** ** The sort order is a total order *)

Lemma ascii_compare_refl a : Ascii.compare a a = Eq.
Proof. unfold Ascii.compare. apply N.compare_refl. Qed.

Lemma ascii_compare_lt_trans a b c :
  Ascii.compare a b = Lt → Ascii.compare b c = Lt → Ascii.compare a c = Lt.
Proof.
  unfold Ascii.compare. rewrite !N.compare_lt_iff. apply N.lt_trans.
Qed.

Lemma string_compare_lt_trans s t u :
  String.compare s t = Lt → String.compare t u = Lt → String.compare s u = Lt.
Proof.
  revert t u. induction s as [|a s IH]; intros [|b t] [|c u]; simpl; try done.
  destruct (Ascii.compare a b) eqn:Hab; try done;
    destruct (Ascii.compare b c) eqn:Hbc; try done.
  - apply Ascii.compare_eq_iff in Hab as ->. rewrite Hbc. apply IH.
  - apply Ascii.compare_eq_iff in Hab as ->. by rewrite Hbc.
  - apply Ascii.compare_eq_iff in Hbc as <-. by rewrite Hab.
  - by rewrite (ascii_compare_lt_trans a b c).
Qed.

Lemma string_leb_trans s t u :
  String.leb s t = true → String.leb t u = true → String.leb s u = true.
Proof.
  unfold String.leb.
  destruct (String.compare s t) eqn:Hst; try done;
    destruct (String.compare t u) eqn:Htu; try done; intros _ _.
  - apply String.compare_eq_iff in Hst as ->. by rewrite Htu.
  - apply String.compare_eq_iff in Hst as ->. by rewrite Htu.
  - apply String.compare_eq_iff in Htu as <-. by rewrite Hst.
  - by rewrite (string_compare_lt_trans s t u).
Qed.

Lemma cell_leb_total a b : cell_leb a b = true ∨ cell_leb b a = true.
Proof.
  destruct a as [|x|s], b as [|y|t]; simpl; auto.
  - destruct (Qc_le_total x y); [left | right]; by apply bool_decide_eq_true.
  - apply String.leb_total.
Qed.

Lemma cell_leb_antisym a b : cell_leb a b = true → cell_leb b a = true → a = b.
Proof.
  destruct a as [|x|s], b as [|y|t]; simpl; try done.
  - intros Hxy%bool_decide_eq_true Hyx%bool_decide_eq_true.
    f_equal. by apply Qcle_antisym.
  - intros ? ?. f_equal. by apply String.leb_antisym.
Qed.

Lemma cell_leb_trans a b c :
  cell_leb a b = true → cell_leb b c = true → cell_leb a c = true.
Proof.
  destruct a as [|x|s], b as [|y|t], c as [|z|u]; simpl; try done.
  - intros Hxy%bool_decide_eq_true Hyz%bool_decide_eq_true.
    apply bool_decide_eq_true. by eapply Qcle_trans.
  - apply string_leb_trans.
Qed.

Lemma lex_leb_refl a : lex_leb a a = true.
Proof. induction a as [|x a IH]; simpl; [done|]. by rewrite decide_True. Qed.

Lemma lex_leb_total a b : lex_leb a b = true ∨ lex_leb b a = true.
Proof.
  revert b. induction a as [|x a IH]; intros [|y b]; simpl; auto.
  destruct (decide (x = y)) as [->|Hxy].
  - rewrite decide_True by done. apply IH.
  - rewrite decide_False by done. apply cell_leb_total.
Qed.

Lemma lex_leb_trans a b c :
  lex_leb a b = true → lex_leb b c = true → lex_leb a c = true.
Proof.
  revert b c. induction a as [|x a IH]; intros [|y b] [|z c]; simpl; try done.
  destruct (decide (x = y)) as [->|Hxy], (decide (y = z)) as [->|Hyz].
  - apply IH.
  - by intros.
  - by rewrite decide_False by done.
  - intros Hle1 Hle2. destruct (decide (x = z)) as [->|Hxz].
    + destruct Hxy. by apply cell_leb_antisym.
    + by eapply cell_leb_trans.
Qed.

Lemma lex_leb_antisym a b :
  length a = length b → lex_leb a b = true → lex_leb b a = true → a = b.
Proof.
  revert b. induction a as [|x a IH]; intros [|y b]; simpl; try done.
  intros [= Hlen]. destruct (decide (x = y)) as [->|Hxy].
  - rewrite decide_True by done. intros ? ?. f_equal. by apply IH.
  - rewrite decide_False by done. intros ? ?. destruct Hxy.
    by apply cell_leb_antisym.
Qed.

(** ** The stable sort *)

Section sort_by_facts.
Context {A : Type} (sort_key : A → list cell).

Lemma insert_by_perm x l : insert_by sort_key x l ≡ₚ x :: l.
Proof.
  induction l as [|y l IH]; simpl; [done|].
  destruct (lex_leb _ _); [done|]. rewrite IH. apply Permutation_swap.
Qed.

Lemma sort_by_perm l : sort_by sort_key l ≡ₚ l.
Proof.
  induction l as [|x l IH]; simpl; [done|].
  by rewrite insert_by_perm, IH.
Qed.

Lemma sort_by_elem_of l x : x ∈ sort_by sort_key l ↔ x ∈ l.
Proof. by rewrite sort_by_perm. Qed.

Lemma sort_by_length l : length (sort_by sort_key l) = length l.
Proof. by rewrite sort_by_perm. Qed.

Lemma insert_by_sorted x l :
  StronglySorted (key_le sort_key) l → StronglySorted (key_le sort_key) (insert_by sort_key x l).
Proof.
  induction l as [|y l IH]; simpl; intros Hs.
  - by repeat constructor.
  - apply StronglySorted_inv in Hs as [Hs Hy].
    destruct (lex_leb (sort_key x) (sort_key y)) eqn:Hxy.
    + constructor; [by constructor|]. constructor; [done|].
      eapply Forall_impl; [exact Hy|]. intros z Hz.
      unfold key_le in *. by eapply lex_leb_trans.
    + constructor; [by apply IH|].
      rewrite insert_by_perm. constructor; [|done].
      unfold key_le. destruct (lex_leb_total (sort_key x) (sort_key y)); congruence.
Qed.

Lemma sort_by_sorted l : StronglySorted (key_le sort_key) (sort_by sort_key l).
Proof.
  induction l as [|x l IH]; simpl; [constructor|]. by apply insert_by_sorted.
Qed.

Lemma insert_by_filter_eq x l :
  filter (λ y, sort_key y = sort_key x) (insert_by sort_key x l) =
  x :: filter (λ y, sort_key y = sort_key x) l.
Proof.
  induction l as [|y l IH]; simpl.
  - by rewrite filter_cons_True.
  - destruct (lex_leb (sort_key x) (sort_key y)) eqn:Hxy.
    + by rewrite filter_cons_True.
    + assert (sort_key y ≠ sort_key x).
      { intros Heq. rewrite Heq, lex_leb_refl in Hxy. done. }
      by rewrite !(filter_cons_False _ y).
Qed.

Lemma insert_by_filter_ne k x l :
  sort_key x ≠ k →
  filter (λ y, sort_key y = k) (insert_by sort_key x l) =
  filter (λ y, sort_key y = k) l.
Proof.
  intros Hk. induction l as [|y l IH]; simpl.
  - by rewrite filter_cons_False.
  - destruct (lex_leb (sort_key x) (sort_key y)).
    + by rewrite filter_cons_False.
    + rewrite !(filter_cons _ y). by rewrite IH.
Qed.

(** Stability: the rows of one key come out in the order they went in. *)
Lemma sort_by_stable k l :
  filter (λ y, sort_key y = k) (sort_by sort_key l) =
  filter (λ y, sort_key y = k) l.
Proof.
  induction l as [|x l IH]; simpl; [done|].
  destruct (decide (sort_key x = k)) as [<-|Hk].
  - by rewrite insert_by_filter_eq, filter_cons_True, IH.
  - by rewrite insert_by_filter_ne, filter_cons_False, IH.
Qed.
End sort_by_facts.

(** ** Joins on keyed tables *)

Lemma elem_of_rows_with k (t : list trow) r :
  r ∈ rows_with k t ↔ r.1 = k ∧ r ∈ t.
Proof. unfold rows_with. by rewrite list_elem_of_filter. Qed.

Lemma rows_with_nil k (t : list trow) :
  rows_with k t = [] ↔ k ∉ t.*1.
Proof.
  split.
  - intros Hnil Hk. apply list_elem_of_fmap in Hk as (r & -> & Hr).
    assert (r ∈ rows_with r.1 t) as Hin by by apply elem_of_rows_with.
    rewrite Hnil in Hin. by apply elem_of_nil in Hin.
  - intros Hk. apply filter_none. intros r Hr <-. apply Hk.
    by apply list_elem_of_fmap_2.
Qed.

Lemma join_key_spec nl nr L R k r :
  r ∈ join_key nl nr L R k ↔ r.1 = k ∧ outer_joined nl nr L R r.
Proof.
  unfold join_key, outer_joined.
  destruct (rows_with k L) as [|l0 ls] eqn:HL.
  - pose proof HL as HkL%rows_with_nil. split.
    + intros Hr. apply list_elem_of_fmap in Hr as (r' & -> & [<- Hr']%elem_of_rows_with).
      simpl. split; [done|]. right. right. by exists r'.
    + intros [<- [(l & r' & Hl & _ & Hlk & _)|[(l & Hl & Hlk & _)|(r' & Hr' & Hk & _ & Hv)]]].
      * destruct HkL. rewrite <-Hlk. by apply list_elem_of_fmap_2.
      * destruct HkL. rewrite <-Hlk. by apply list_elem_of_fmap_2.
      * apply list_elem_of_fmap. exists r'. split; [|by apply elem_of_rows_with].
        destruct r as [k v]. simpl in *. by subst.
  - assert (HkL : k ∈ L.*1).
    { assert (l0 ∈ rows_with k L) as [<- ?]%elem_of_rows_with by (rewrite HL; left).
      by apply list_elem_of_fmap_2. }
    destruct (rows_with k R) as [|r0 rs] eqn:HR.
    + pose proof HR as HkR%rows_with_nil. rewrite <-HL. split.
      * intros Hr. apply list_elem_of_fmap in Hr as (l & -> & [<- Hl]%elem_of_rows_with).
        simpl. split; [done|]. right. left. by exists l.
      * intros [<- [(l & r' & _ & Hr' & _ & Hrk & _)|[(l & Hl & Hlk & _ & Hv)|(r' & _ & _ & Hno & _)]]].
        -- destruct HkR. rewrite <-Hrk. by apply list_elem_of_fmap_2.
        -- apply list_elem_of_fmap. exists l. split; [|by apply elem_of_rows_with].
           destruct r as [k v]. simpl in *. by subst.
        -- done.
    + assert (HkR : k ∈ R.*1).
      { assert (r0 ∈ rows_with k R) as [<- ?]%elem_of_rows_with by (rewrite HR; left).
        by apply list_elem_of_fmap_2. }
      rewrite <-HL, <-HR. split.
      * intros Hr. apply list_elem_of_bind in Hr as (l & Hr & [Hlk Hl]%elem_of_rows_with).
        apply list_elem_of_fmap in Hr as (r' & -> & [<- Hr']%elem_of_rows_with).
        simpl. split; [done|]. left. by exists l, r'.
      * intros [<- [(l & r' & Hl & Hr' & Hlk & Hrk & Hv)|[(l & _ & _ & Hno & _)|(r' & _ & _ & Hno & _)]]];
          [|done..].
        apply list_elem_of_bind. exists l. split; [|by apply elem_of_rows_with].
        apply list_elem_of_fmap. exists r'. split; [|by apply elem_of_rows_with].
        destruct r as [k v]. simpl in *. by subst.
Qed.

Lemma merge_outer_spec L R r :
  r ∈ trows (merge_outer L R) ↔
  outer_joined (length (value_labels L)) (length (value_labels R)) (trows L) (trows R) r.
Proof.
  unfold merge_outer. simpl. rewrite list_elem_of_bind. split.
  - by intros (k & [_ ?]%join_key_spec & _).
  - intros Hr. exists r.1. split; [by apply join_key_spec|].
    apply sort_by_elem_of, elem_of_remove_dups, elem_of_app.
    destruct Hr as [(l & _ & Hl & _ & <- & _)|[(l & Hl & <- & _)|(r' & Hr' & <- & _)]].
    + left. by apply list_elem_of_fmap_2.
    + left. by apply list_elem_of_fmap_2.
    + right. by apply list_elem_of_fmap_2.
Qed.

Lemma merge_outer_keys L R k :
  k ∈ (trows (merge_outer L R)).*1 ↔ k ∈ (trows L).*1 ∨ k ∈ (trows R).*1.
Proof.
  split.
  - intros (r & -> & Hr%merge_outer_spec)%list_elem_of_fmap.
    destruct Hr as [(l & _ & Hl & _ & <- & _)|[(l & Hl & <- & _)|(r' & Hr' & <- & _)]].
    + left. by apply list_elem_of_fmap_2.
    + left. by apply list_elem_of_fmap_2.
    + right. by apply list_elem_of_fmap_2.
  - intros Hk.
    destruct (decide (k ∈ (trows L).*1)) as [HL|HL],
      (decide (k ∈ (trows R).*1)) as [HR|HR]; [| | |tauto].
    + apply list_elem_of_fmap in HL as (l & -> & Hl).
      apply list_elem_of_fmap in HR as (r' & Hk' & Hr').
      apply list_elem_of_fmap. exists (l.1, l.2 ++ r'.2). split; [done|].
      apply merge_outer_spec. left. by exists l, r'.
    + apply list_elem_of_fmap in HL as (l & -> & Hl).
      apply list_elem_of_fmap.
      exists (l.1, l.2 ++ replicate (length (value_labels R)) CNull).
      split; [done|]. apply merge_outer_spec. right. left. by exists l.
    + apply list_elem_of_fmap in HR as (r' & -> & Hr').
      apply list_elem_of_fmap.
      exists (r'.1, replicate (length (value_labels L)) CNull ++ r'.2).
      split; [done|]. apply merge_outer_spec. right. right. by exists r'.
Qed.

Lemma merge_left_spec L R r :
  r ∈ trows (merge_left L R) ↔
  left_joined (length (value_labels R)) (trows L) (trows R) r.
Proof.
  unfold merge_left, left_joined. simpl. rewrite list_elem_of_bind.
  split.
  - intros (l & Hr & Hl). exists l. split; [done|].
    destruct (rows_with l.1 (trows R)) as [|r0 rs] eqn:HR.
    + apply rows_with_nil in HR. apply list_elem_of_singleton in Hr as ->.
      simpl. split; [done|]. by right.
    + change (r ∈ (λ r' : trow, (l.1, l.2 ++ r'.2)) <$> (r0 :: rs)) in Hr.
      rewrite <-HR in Hr.
      apply list_elem_of_fmap in Hr as (r' & -> & [Hk Hr']%elem_of_rows_with).
      simpl. split; [done|]. left. by exists r'.
  - intros (l & Hl & Hlk & Hcase). exists l. split; [|done].
    destruct r as [k v]. simpl in *. subst k.
    destruct Hcase as [(r' & Hr' & Hrk & ->)|[Hno ->]].
    + destruct (rows_with l.1 (trows R)) as [|r0 rs] eqn:HR.
      * apply rows_with_nil in HR. destruct HR. rewrite <-Hrk.
        by apply list_elem_of_fmap_2.
      * change ((l.1, l.2 ++ r'.2) ∈ (λ r' : trow, (l.1, l.2 ++ r'.2)) <$> (r0 :: rs)).
        rewrite <-HR. apply list_elem_of_fmap. exists r'.
        split; [done|]. by apply elem_of_rows_with.
    + apply rows_with_nil in Hno. rewrite Hno. left.
Qed.

Lemma merge_left_keys L R k :
  k ∈ (trows (merge_left L R)).*1 ↔ k ∈ (trows L).*1.
Proof.
  split.
  - intros (r & -> & (l & Hl & <- & _)%merge_left_spec)%list_elem_of_fmap.
    by apply list_elem_of_fmap_2.
  - intros (l & -> & Hl)%list_elem_of_fmap.
    destruct (decide (l.1 ∈ (trows R).*1)) as [HR|HR].
    + apply list_elem_of_fmap in HR as (r' & Hk & Hr').
      apply list_elem_of_fmap. exists (l.1, l.2 ++ r'.2). split; [done|].
      apply merge_left_spec. exists l. repeat split; [done|]. left. by exists r'.
    + apply list_elem_of_fmap.
      exists (l.1, l.2 ++ replicate (length (value_labels R)) CNull).
      split; [done|]. apply merge_left_spec. exists l. repeat split; [done|].
      by right.
Qed.

(** ** Frames and keyed tables *)

Lemma row_key_key_cells k vals : row_key (key_cells k ++ vals) = k.
Proof. by destruct k as [[a b] c]. Qed.

Lemma drop_key_cells k vals : drop 3 (key_cells k ++ vals) = vals.
Proof. by destruct k as [[a b] c]. Qed.

Lemma frame_keys_frame_of_table t : frame_keys (frame_of_table t) = (trows t).*1.
Proof.
  unfold frame_keys, frame_of_table. simpl. rewrite <-list_fmap_compose.
  apply list_fmap_ext. intros _ r _. simpl. apply row_key_key_cells.
Qed.

Lemma keyed_Ok df t :
  keyed df = Ok t →
  columns df = key_labels ++ value_labels t ∧
  Forall (λ c, c ∉ value_labels t) key_labels ∧
  trows t = (λ r, (row_key r, drop 3 r)) <$> rows df.
Proof.
  unfold keyed. destruct (columns df) as [|c1 [|c2 [|c3 vs]]]; try done.
  destruct (decide _) as [[Heq Hfree]|]; [|done].
  intros [= <-]. simpl. injection Heq as -> -> ->. done.
Qed.

Lemma keyed_keys df t : keyed df = Ok t → (trows t).*1 = frame_keys df.
Proof.
  intros (_ & _ & ->)%keyed_Ok. unfold frame_keys.
  by rewrite <-list_fmap_compose.
Qed.

Lemma keyed_frame_of_table t :
  Forall (λ c, c ∉ value_labels t) key_labels →
  keyed (frame_of_table t) = Ok t.
Proof.
  intros Hfree. unfold keyed, frame_of_table. simpl.
  rewrite decide_True by done. destruct t as [vl rs]. simpl. f_equal. f_equal.
  rewrite <-list_fmap_compose. apply fmap_id_on. by intros [[[a b] c] v] _.
Qed.

Lemma merge_Ok L R h m :
  merge L R h = Ok m →
  ∃ l r, keyed L = Ok l ∧ keyed R = Ok r ∧
    let t := match h with Outer => merge_outer l r | Left => merge_left l r end in
    m = frame_of_table t ∧ keyed m = Ok t.
Proof.
  unfold merge. destruct (keyed L) as [l|] eqn:HL; [|done].
  destruct (keyed R) as [r|] eqn:HR; [|done]. simpl. intros [= <-].
  exists l, r. split; [done|]. split; [done|]. simpl. split; [done|].
  apply keyed_frame_of_table.
  apply keyed_Ok in HL as (_ & HfL & _). apply keyed_Ok in HR as (_ & HfR & _).
  rewrite Forall_forall in HfL, HfR. apply Forall_forall. intros c Hc.
  assert (c ∉ value_labels l ++ value_labels r).
  { intros [?|?]%elem_of_app; [by eapply HfL | by eapply HfR]. }
  by destruct h.
Qed.

Lemma positions_from_nil n c cols : c ∉ cols → positions_from n c cols = [].
Proof.
  revert n. induction cols as [|x cols IH]; intros n Hc; simpl; [done|].
  rewrite decide_False by (intros ->; apply Hc; left).
  apply IH. intros ?. apply Hc. by right.
Qed.

Lemma sort_values_keyed df t :
  keyed df = Ok t →
  sort_values ["iso3"; "year"] df =
  Ok {| columns := columns df; rows := sort_by (cells_at [0; 2]) (rows df) |}.
Proof.
  intros (Hcols & Hfree & _)%keyed_Ok. rewrite Forall_forall in Hfree.
  unfold sort_values, columns_of, column_of, label_positions. rewrite Hcols. simpl.
  rewrite !positions_from_nil by (apply Hfree; solve_elem). done.
Qed.

(** ** The steps of [master_table] *)

Lemma merge_indicators_Ok co2 energy water sanit gdp ind :
  merge_indicators co2 energy water sanit gdp = Ok ind →
  ∃ A B C D E,
    keyed co2 = Ok A ∧ keyed energy = Ok B ∧ keyed water = Ok C ∧
    keyed sanit = Ok D ∧ keyed gdp = Ok E ∧
    let t := merge_outer (merge_outer (merge_outer (merge_outer A B) C) D) E in
    ind = frame_of_table t ∧ keyed ind = Ok t.
Proof.
  unfold merge_indicators.
  destruct (merge co2 energy Outer) as [d1|] eqn:H1; [|done]. simpl.
  destruct (merge d1 water Outer) as [d2|] eqn:H2; [|done]. simpl.
  destruct (merge d2 sanit Outer) as [d3|] eqn:H3; [|done]. simpl.
  intros H4.
  apply merge_Ok in H1 as (A & B & HA & HB & _ & Hk1).
  apply merge_Ok in H2 as (AB & C & HAB & HC & _ & Hk2).
  apply merge_Ok in H3 as (ABC & D & HABC & HD & _ & Hk3).
  apply merge_Ok in H4 as (ABCD & E & HABCD & HE & Hind & Hk4).
  simpl in *.
  assert (AB = merge_outer A B) as -> by congruence.
  assert (ABC = merge_outer (merge_outer A B) C) as -> by congruence.
  assert (ABCD = merge_outer (merge_outer (merge_outer A B) C) D) as -> by congruence.
  by exists A, B, C, D, E.
Qed.

Lemma master_table_Ok co2 energy water sanit gdp temp out :
  master_table co2 energy water sanit gdp temp = Ok out →
  ∃ ind m t,
    merge_indicators co2 energy water sanit gdp = Ok ind ∧
    attach_temp ind temp = Ok m ∧
    keyed m = Ok t ∧
    out = {| columns := columns m; rows := sort_by (cells_at [0; 2]) (rows m) |}.
Proof.
  unfold master_table.
  destruct (merge_indicators co2 energy water sanit gdp) as [ind|] eqn:Hind; [|done].
  simpl. destruct (attach_temp ind temp) as [m|] eqn:Hm; [|done]. simpl.
  intros Hs.
  assert (∃ t, keyed m = Ok t) as [t Ht].
  { destruct temp as [tmp|]; simpl in Hm.
    - apply merge_Ok in Hm as (? & ? & _ & _ & _ & ?). eauto.
    - injection Hm as <-.
      apply merge_indicators_Ok in Hind as (?&?&?&?&?&_&_&_&_&_&_&?). eauto. }
  rewrite (sort_values_keyed m t Ht) in Hs. injection Hs as <-.
  by exists ind, m, t.
Qed.

(** ** Null values for the keys a table lacks *)

(** An index listed in a written-out provenance is below a known bound. *)
Ltac solve_index H :=
  repeat (apply elem_of_cons in H as [[= -> ->]|H]; [lia|]);
  by apply elem_of_nil in H.

Lemma merge_outer_wf L R :
  table_wf L → table_wf R → table_wf (merge_outer L R).
Proof.
  intros HL HR r Hr%merge_outer_spec. simpl. rewrite length_app.
  destruct Hr as [(l & r' & Hl & Hr' & _ & _ & ->)|[(l & Hl & _ & _ & ->)|(r' & Hr' & _ & _ & ->)]];
    rewrite length_app, ?length_replicate; by rewrite ?(HL l), ?(HR r').
Qed.

Lemma merge_outer_nulls prov L R :
  table_wf L → table_wf R → (0 < length (value_labels R))%nat →
  (∀ ks i, (ks, i) ∈ prov → (i < length (value_labels L))%nat) →
  nulls_where_absent prov L →
  nulls_where_absent (prov ++ [((trows R).*1, length (value_labels L))])
    (merge_outer L R).
Proof.
  intros HL HR Hpos Hidx Hinv r ks i Hr%merge_outer_spec Hp Hk.
  apply elem_of_app in Hp as [Hp|Hp%list_elem_of_singleton].
  - pose proof (Hidx _ _ Hp) as Hi.
    destruct Hr as [(l & r' & Hl & Hr' & Hlk & _ & ->)|[(l & Hl & Hlk & _ & ->)|(r' & Hr' & _ & _ & ->)]].
    + apply lookup_app_l_Some. apply (Hinv l ks i); [done..|by rewrite Hlk].
    + apply lookup_app_l_Some. apply (Hinv l ks i); [done..|by rewrite Hlk].
    + apply lookup_app_l_Some. by apply lookup_replicate_2.
  - injection Hp as -> ->.
    destruct Hr as [(l & r' & Hl & Hr' & _ & Hrk & ->)|[(l & Hl & _ & _ & ->)|(r' & Hr' & Hrk & _ & ->)]].
    + destruct Hk. rewrite <-Hrk. by apply list_elem_of_fmap_2.
    + rewrite lookup_app_r by (rewrite (HL l Hl); lia).
      rewrite (HL l Hl), Nat.sub_diag. by apply lookup_replicate_2.
    + destruct Hk. rewrite <-Hrk. by apply list_elem_of_fmap_2.
Qed.

Lemma nulls_where_absent_own (t : Table) :
  nulls_where_absent [((trows t).*1, 0)] t.
Proof.
  intros r ks i Hr [= -> ->]%list_elem_of_singleton Hk.
  destruct Hk. by apply list_elem_of_fmap_2.
Qed.

(** The chain of four outer joins of five one-column tables. *)
Lemma outer_chain_nulls A B C D E :
  table_wf A → table_wf B → table_wf C → table_wf D → table_wf E →
  length (value_labels A) = 1 → length (value_labels B) = 1 →
  length (value_labels C) = 1 → length (value_labels D) = 1 →
  length (value_labels E) = 1 →
  let t := merge_outer (merge_outer (merge_outer (merge_outer A B) C) D) E in
  table_wf t ∧
  nulls_where_absent
    [((trows A).*1, 0); ((trows B).*1, 1); ((trows C).*1, 2);
     ((trows D).*1, 3); ((trows E).*1, 4)] t.
Proof.
  intros HA HB HC HD HE LA LB LC LD LE t. subst t.
  set (AB := merge_outer A B). set (ABC := merge_outer AB C).
  set (ABCD := merge_outer ABC D).
  assert (LAB : length (value_labels AB) = 2)
    by (subst AB; simpl; rewrite !length_app; lia).
  assert (LABC : length (value_labels ABC) = 3)
    by (subst ABC AB; simpl; rewrite !length_app; lia).
  assert (LABCD : length (value_labels ABCD) = 4)
    by (subst ABCD ABC AB; simpl; rewrite !length_app; lia).
  assert (WAB : table_wf AB) by by apply merge_outer_wf.
  assert (WABC : table_wf ABC) by by apply merge_outer_wf.
  assert (WABCD : table_wf ABCD) by by apply merge_outer_wf.
  split; [by apply merge_outer_wf|].
  assert (H1 : nulls_where_absent [((trows A).*1, 0); ((trows B).*1, 1)] AB).
  { pose proof (merge_outer_nulls [((trows A).*1, 0)] A B HA HB) as Hm.
    rewrite LA in Hm. apply Hm; [lia | | apply nulls_where_absent_own].
    intros ks i Hin. solve_index Hin. }
  assert (H2 : nulls_where_absent
            [((trows A).*1, 0); ((trows B).*1, 1); ((trows C).*1, 2)] ABC).
  { pose proof (merge_outer_nulls [((trows A).*1, 0); ((trows B).*1, 1)]
                  AB C WAB HC ltac:(lia)) as Hm.
    rewrite LAB in Hm. apply Hm; [|exact H1]. intros ks i Hin. solve_index Hin. }
  assert (H3 : nulls_where_absent
            [((trows A).*1, 0); ((trows B).*1, 1); ((trows C).*1, 2);
             ((trows D).*1, 3)] ABCD).
  { pose proof (merge_outer_nulls
                  [((trows A).*1, 0); ((trows B).*1, 1); ((trows C).*1, 2)]
                  ABC D WABC HD ltac:(lia)) as Hm.
    rewrite LABC in Hm. apply Hm; [|exact H2]. intros ks i Hin. solve_index Hin. }
  pose proof (merge_outer_nulls
                [((trows A).*1, 0); ((trows B).*1, 1); ((trows C).*1, 2);
                 ((trows D).*1, 3)] ABCD E WABCD HE ltac:(lia)) as Hm.
  rewrite LABCD in Hm. apply Hm; [|exact H3]. intros ks i Hin. solve_index Hin.
Qed.

(** The temperature join keeps the rows of the indicator table, each
    extended on the right. *)
Lemma attach_temp_Ok ind temp m T :
  ind = frame_of_table T → keyed ind = Ok T →
  attach_temp ind temp = Ok m →
  ∃ t, m = frame_of_table t ∧ keyed m = Ok t ∧
    (∀ r, r ∈ trows t → ∃ l x, l ∈ trows T ∧ l.1 = r.1 ∧ r.2 = l.2 ++ x) ∧
    (∀ k, k ∈ (trows t).*1 ↔ k ∈ (trows T).*1) ∧
    ∃ vx, value_labels t = value_labels T ++ vx.
Proof.
  intros Hind HT Hm. destruct temp as [tmp|]; simpl in Hm.
  - apply merge_Ok in Hm as (T' & Tt & HT' & Ht & -> & Hk). simpl in *.
    assert (T' = T) as -> by congruence.
    exists (merge_left T Tt). repeat split; try done.
    + intros r (l & Hl & Hlk & Hcase)%merge_left_spec.
      destruct Hcase as [(r' & _ & _ & ->)|[_ ->]]; eauto.
    + by intros ?%merge_left_keys.
    + intros ?. by apply merge_left_keys.
    + by exists (value_labels Tt).
  - injection Hm as <-. exists T. repeat split; try done.
    + intros r Hr. exists r, []. by rewrite app_nil_r.
    + exists []. by rewrite app_nil_r.
Qed.

Lemma elem_of_frame_of_table t r :
  r ∈ rows (frame_of_table t) ↔ ∃ x, x ∈ trows t ∧ r = key_cells x.1 ++ x.2.
Proof.
  unfold frame_of_table. simpl. rewrite list_elem_of_fmap.
  split; intros (x & ? & ?); by exists x.
Qed.

Lemma cell_at_values k vals i :
  cell_at (3 + i) (key_cells k ++ vals) = default CNull (vals !! i).
Proof. by destruct k as [[a b] c]. Qed.

Section Master.

Context `{!Pandas}.

(** A result of [read_owid_csv] that [merge] accepts is a table with one
    value column. *)
Lemma read_owid_csv_keyed raw value_name t T :
  read_owid_csv raw value_name = Ok t → keyed t = Ok T →
  value_labels T = [value_name] ∧ table_wf T.
Proof.
  intros (vc & y & c & v & _ & _ & _ & _ & _ & _ & Hout)%read_owid_csv_inv HT.
  simpl in Hout. apply keyed_Ok in HT as (Hcols & _ & Hrows).
  subst t. simpl in *.
  destruct (label_positions "country" _) as [|n1 [|n2 ns]]; simpl in Hcols;
    try discriminate Hcols.
  injection Hcols as Hvl. split; [done|].
  intros r Hr. rewrite Hrows in Hr. rewrite <-Hvl.
  apply list_elem_of_fmap in Hr as (r0 & -> & Hr0).
  apply list_elem_of_fmap in Hr0 as (r1 & -> & _). done.
Qed.

(** C1. The master table built from five normalised indicator tables has a
    row for a key if and only if at least one of the five tables has that
    key; and in each of its rows, the value column of a table that lacks
    the key of the row is null.  (The temperature column, when there is
    one, comes after the five.) *)
Theorem master_table_keys raw1 raw2 raw3 raw4 raw5
    co2 energy water sanit gdp temp out :
  read_owid_csv raw1 "co2_pc" = Ok co2 →
  read_owid_csv raw2 "energy_pc" = Ok energy →
  read_owid_csv raw3 "water_basic_pct" = Ok water →
  read_owid_csv raw4 "sanitation_pct" = Ok sanit →
  read_owid_csv raw5 "gdp_pc" = Ok gdp →
  master_table co2 energy water sanit gdp temp = Ok out →
  take 8 (columns out) =
    ["iso3"; "country"; "year"; "co2_pc"; "energy_pc"; "water_basic_pct";
     "sanitation_pct"; "gdp_pc"] ∧
  (∀ k, k ∈ frame_keys out ↔
     k ∈ frame_keys co2 ∨ k ∈ frame_keys energy ∨ k ∈ frame_keys water ∨
     k ∈ frame_keys sanit ∨ k ∈ frame_keys gdp) ∧
  (∀ r, r ∈ rows out →
     (row_key r ∉ frame_keys co2 → cell_at 3 r = CNull) ∧
     (row_key r ∉ frame_keys energy → cell_at 4 r = CNull) ∧
     (row_key r ∉ frame_keys water → cell_at 5 r = CNull) ∧
     (row_key r ∉ frame_keys sanit → cell_at 6 r = CNull) ∧
     (row_key r ∉ frame_keys gdp → cell_at 7 r = CNull)).
Proof.
  intros R1 R2 R3 R4 R5 Hout.
  apply master_table_Ok in Hout as (ind & m & t & Hind & Hm & Hkm & ->).
  apply merge_indicators_Ok in Hind
    as (A & B & C & D & E & HA & HB & HC & HD & HE & Hind & Hkind).
  simpl in Hind, Hkind. set (T := merge_outer _ E) in Hind, Hkind.
  destruct (read_owid_csv_keyed _ _ _ _ R1 HA) as [LA WA].
  destruct (read_owid_csv_keyed _ _ _ _ R2 HB) as [LB WB].
  destruct (read_owid_csv_keyed _ _ _ _ R3 HC) as [LC WC].
  destruct (read_owid_csv_keyed _ _ _ _ R4 HD) as [LD WD].
  destruct (read_owid_csv_keyed _ _ _ _ R5 HE) as [LE WE].
  destruct (outer_chain_nulls A B C D E WA WB WC WD WE) as [WT Hnull];
    [by rewrite ?LA, ?LB, ?LC, ?LD, ?LE..|]. fold T in WT, Hnull.
  destruct (attach_temp_Ok _ _ _ _ Hind Hkind Hm)
    as (t' & -> & Hkm' & Hrows & Hkeys & vx & Hvl).
  assert (t' = t) as -> by congruence.
  rewrite <-(keyed_keys _ _ HA), <-(keyed_keys _ _ HB), <-(keyed_keys _ _ HC),
    <-(keyed_keys _ _ HD), <-(keyed_keys _ _ HE).
  split; [|split].
  - simpl. rewrite Hvl. subst T. simpl. by rewrite LA, LB, LC, LD, LE.
  - intros k. unfold frame_keys. simpl.
    assert (k ∈ row_key <$> sort_by (cells_at [0; 2]) (rows (frame_of_table t))
            ↔ k ∈ frame_keys (frame_of_table t)) as ->.
    { unfold frame_keys. by rewrite sort_by_perm. }
    rewrite frame_keys_frame_of_table, Hkeys. subst T.
    rewrite !merge_outer_keys. tauto.
  - intros r Hr. simpl in Hr. apply sort_by_elem_of in Hr.
    apply elem_of_frame_of_table in Hr as (x & Hx & ->).
    rewrite row_key_key_cells.
    destruct (Hrows x Hx) as (l & ext & Hl & Hlk & Hx2). rewrite Hx2, <-Hlk.
    assert (Hcell : ∀ ks i, (ks, i) ∈
              [((trows A).*1, 0); ((trows B).*1, 1); ((trows C).*1, 2);
               ((trows D).*1, 3); ((trows E).*1, 4)] →
              l.1 ∉ ks → cell_at (3 + i) (key_cells l.1 ++ l.2 ++ ext) = CNull).
    { intros ks i Hin Hk. rewrite cell_at_values.
      by rewrite (lookup_app_l_Some _ _ _ _ (Hnull l ks i Hl Hin Hk)). }
    repeat split; intros Hk.
    + apply (Hcell (trows A).*1 0); [solve_elem | done].
    + apply (Hcell (trows B).*1 1); [solve_elem | done].
    + apply (Hcell (trows C).*1 2); [solve_elem | done].
    + apply (Hcell (trows D).*1 3); [solve_elem | done].
    + apply (Hcell (trows E).*1 4); [solve_elem | done].
Qed.

End Master.

(** C7. The master table is the merged table sorted in ascending order of
    (iso3, year): its rows are in order pairwise, they are the rows of the
    merged table, each as many times as there (nothing is deduplicated),
    and the rows of one (iso3, year) key are in the order they had before
    the sort.  The order is total, transitive and antisymmetric on keys. *)
Theorem master_table_sorted co2 energy water sanit gdp temp out :
  master_table co2 energy water sanit gdp temp = Ok out →
  ∃ merged,
    merge_indicators co2 energy water sanit gdp
      ≫= (λ df, attach_temp df temp) = Ok merged ∧
    columns out = columns merged ∧
    columns out !! 0 = Some "iso3" ∧ columns out !! 2 = Some "year" ∧
    StronglySorted (key_le (cells_at [0; 2])) (rows out) ∧
    rows out ≡ₚ rows merged ∧
    (∀ k, filter (λ r, cells_at [0; 2] r = k) (rows out) =
          filter (λ r, cells_at [0; 2] r = k) (rows merged)) ∧
    (∀ a b, lex_leb a b = true ∨ lex_leb b a = true) ∧
    (∀ a b c, lex_leb a b = true → lex_leb b c = true → lex_leb a c = true) ∧
    (∀ a b, length a = length b →
            lex_leb a b = true → lex_leb b a = true → a = b).
Proof.
  intros (ind & m & t & Hind & Hm & Hkm & ->)%master_table_Ok.
  exists m. rewrite Hind. simpl.
  apply keyed_Ok in Hkm as (Hcols & _ & _).
  repeat split; try done.
  - by rewrite Hcols.
  - by rewrite Hcols.
  - apply sort_by_sorted.
  - apply sort_by_perm.
  - intros k. apply sort_by_stable.
  - apply lex_leb_total.
  - apply lex_leb_trans.
  - apply lex_leb_antisym.
Qed.

Section Temperature.

Context `{!Pandas}.



End Temperature.

(** ** Group means *)

Lemma numbers_nulls cs : Forall (λ c, c = CNull) cs → numbers cs = [].
Proof.
  unfold numbers. induction 1 as [|c cs -> _ IH]; [done|]. simpl. exact IH.
Qed.

Lemma mean_nulls cs : numbers cs = [] → mean cs = CNull.
Proof. unfold mean. by intros ->. Qed.

(** The mean times the count of the numbers is their sum. *)
Lemma mean_numbers cs :
  numbers cs ≠ [] →
  ∃ q, mean cs = CNum q ∧
       (q * Qc_of_Z (Z.of_nat (length (numbers cs))) = Qc_sum (numbers cs))%Qc.
Proof.
  unfold mean. destruct (numbers cs) as [|q0 qs] eqn:E; [done|]. intros _.
  eexists. split; [done|]. apply test_field.
  rewrite <-Z2Qc_inj_0. intros Heq%Z2Qc_inj. simpl in Heq. lia.
Qed.

Lemma groupby_mean_keys obs : (groupby_mean obs).*1 ≡ₚ
  remove_dups (filter (λ r, key_notna r.1) obs).*1.
Proof.
  unfold groupby_mean. rewrite <-list_fmap_compose.
  rewrite (list_fmap_ext _ id) by done. rewrite list_fmap_id.
  apply sort_by_perm.
Qed.

Lemma groupby_mean_NoDup obs : NoDup (groupby_mean obs).*1.
Proof. rewrite groupby_mean_keys. apply NoDup_remove_dups. Qed.

Lemma groupby_mean_elem_of obs k :
  k ∈ (groupby_mean obs).*1 ↔ key_notna k ∧ k ∈ obs.*1.
Proof.
  rewrite groupby_mean_keys, elem_of_remove_dups, !list_elem_of_fmap. split.
  - intros (o & -> & [Hna Ho]%list_elem_of_filter). split; [done|]. by exists o.
  - intros (Hna & o & -> & Ho). exists o. split; [done|].
    by apply list_elem_of_filter.
Qed.

Lemma groupby_mean_row obs g :
  g ∈ groupby_mean obs →
  g.2 = mean (filter (λ o, o.1 = g.1) obs).*2 ∧ key_notna g.1.
Proof.
  intros Hg.
  assert (Hna : key_notna g.1).
  { apply (groupby_mean_elem_of obs). by apply list_elem_of_fmap_2. }
  split; [|done]. unfold groupby_mean in Hg.
  apply list_elem_of_fmap in Hg as (k & -> & _). simpl in *.
  rewrite list_filter_filter. f_equal. f_equal.
  apply list_filter_iff. intros o. split; [tauto|].
  intros ->. done.
Qed.

(** Evaluation of a column lookup on written-out labels. *)
Ltac eval_column :=
  match goal with
  | |- context [column_of ?e ?c ?df] =>
      let r := eval vm_compute in (column_of e c df) in
      change (column_of e c df) with r; cbn [mbind result_bind]
  end.

Lemma assign_fresh c f df :
  c ∉ columns df →
  assign c f df = {| columns := columns df ++ [c];
                     rows := (λ r, r ++ [f r]) <$> rows df |}.
Proof. intros Hc%label_positions_nil. unfold assign. by rewrite Hc. Qed.

Section Annual.

Context `{!Pandas}.

Lemma load_country_temp_anom_Ok raw temp :
  load_country_temp_anom raw = Ok temp →
  ∃ obs, temp_observations raw = Ok obs ∧
    temp = {| columns := ["iso3"; "country"; "year"; "temp_anom"];
              rows := (λ g, key_cells g.1 ++ [g.2]) <$> groupby_mean obs |}.
Proof.
  unfold load_country_temp_anom.
  destruct (temp_observations raw) as [obs|]; [|done].
  intros [= <-]. by exists obs.
Qed.

(** C4. The result of [load_country_temp_anom] has one row per group, a
    group being the rows kept by the filters that share one
    (iso3, country, year) key without a null in it.  The [temp_anom] of the
    row is the mean of the numbers among the anomalies of the group (its
    product with their count is their sum), and it is null when all the
    anomalies of the group are null.  Two rows of [TST] for days of 2010
    with anomalies 1 and 3 give the single row (TST, Testland, 2010, 2). *)
Theorem load_country_temp_anom_mean :
  (∀ raw temp,
     load_country_temp_anom raw = Ok temp →
     ∃ obs,
       temp_observations raw = Ok obs ∧
       NoDup (frame_keys temp) ∧
       (∀ k, k ∈ frame_keys temp ↔ key_notna k ∧ k ∈ obs.*1) ∧
       (∀ r, r ∈ rows temp →
          let vals := (filter (λ o, o.1 = row_key r) obs).*2 in
          r = key_cells (row_key r) ++ [cell_at 3 r] ∧
          (Forall (λ c, c = CNull) vals → cell_at 3 r = CNull) ∧
          (numbers vals ≠ [] →
           ∃ q, cell_at 3 r = CNum q ∧
                (q * Qc_of_Z (Z.of_nat (length (numbers vals)))
                 = Qc_sum (numbers vals))%Qc))) ∧
  (∀ d1 d2,
     to_datetime_year d1 = Some 2010%Z →
     to_datetime_year d2 = Some 2010%Z →
     load_country_temp_anom (two_days d1 d2) =
     Ok {| columns := ["iso3"; "country"; "year"; "temp_anom"];
           rows := [ [CStr "TST"; CStr "Testland"; CNum (Qc_of_Z 2010);
                      CNum (Qc_of_Z 2)] ] |}).
Proof.
  split.
  - intros raw temp (obs & Hobs & ->)%load_country_temp_anom_Ok.
    exists obs. split; [done|].
    assert (Hk : frame_keys
              {| columns := ["iso3"; "country"; "year"; "temp_anom"];
                 rows := (λ g, key_cells g.1 ++ [g.2]) <$> groupby_mean obs |}
            = (groupby_mean obs).*1).
    { unfold frame_keys. simpl. rewrite <-list_fmap_compose.
      apply list_fmap_ext. intros _ g _. simpl. apply row_key_key_cells. }
    rewrite Hk. split; [apply groupby_mean_NoDup|].
    split; [apply groupby_mean_elem_of|].
    intros r (g & -> & Hg)%list_elem_of_fmap.
    rewrite row_key_key_cells.
    assert (Hc : cell_at 3 (key_cells g.1 ++ [g.2]) = g.2)
      by exact (cell_at_values g.1 [g.2] 0).
    rewrite Hc. destruct (groupby_mean_row obs g Hg) as [Hg2 _].
    split; [done|]. rewrite Hg2. split.
    + intros Hnull. by apply mean_nulls, numbers_nulls.
    + apply mean_numbers.
  - intros d1 d2 H1 H2. unfold load_country_temp_anom, temp_observations, two_days.
    rewrite decide_True by (by intros x).
    repeat eval_column.
    rewrite assign_fresh by compute_done.
    unfold map_column, filter_rows, rename. cbn [rows columns].
    rewrite !fmap_cons, !fmap_nil. cbn [cell_at lookup list_lookup default app].
    unfold id, year_of_day. rewrite H1, H2. cbn [from_option].
    assert (Hq : CNum (Qc_of_Z 2) = mean [CNum (Qc_of_Z 1); CNum (Qc_of_Z 3)])
      by (unfold mean; simpl; f_equal; by apply Qc_is_canon).
    rewrite Hq. by vm_compute.
Qed.

End Annual.

(** ** The global monthly export *)

Lemma label_positions_snoc c cols x :
  label_positions c (cols ++ [x]) =
  label_positions c cols ++ (if decide (x = c) then [length cols] else []).
Proof. unfold label_positions. rewrite positions_from_app. simpl. done. Qed.

Lemma label_positions_lt c cols i :
  i ∈ label_positions c cols → (i < length cols)%nat.
Proof. intros Hi%label_positions_spec. by eapply lookup_lt_Some. Qed.

Lemma month_idx_notna c :
  notna (month_idx c) →
  ∃ name idx, c = CStr name ∧ order_map name = Some idx ∧
              month_idx c = CNum (Qc_of_Z (Z.of_nat idx)).
Proof.
  destruct c as [| |name]; simpl; try done.
  destruct (order_map name) as [idx|] eqn:E; simpl; [|done]. intros _.
  by exists name, idx.
Qed.

Lemma order_map_Some name idx :
  order_map name = Some idx →
  name ∈ month_order ∧ (1 ≤ idx ≤ 12)%nat ∧ month_order !! (idx - 1)%nat = Some name.
Proof.
  unfold order_map. destruct (list_find _ month_order) as [[p x]|] eqn:E; [|done].
  simpl. intros [= <-]. apply list_find_Some in E as (Hp & -> & _).
  replace (S p - 1) with p by lia. split; [by eapply list_elem_of_lookup_2|].
  split; [|done]. apply lookup_lt_Some in Hp. simpl in Hp. lia.
Qed.

Lemma sorted_consecutive {A} (R : relation A) (l : list A) n a b :
  StronglySorted R l → l !! n = Some a → l !! S n = Some b → R a b.
Proof.
  intros Hs. revert n. induction Hs as [|x l Hs IH Hx]; intros n; [done|].
  destruct n as [|n]; simpl.
  - intros [= ->] Hb. rewrite Forall_forall in Hx. apply Hx.
    by eapply list_elem_of_lookup_2.
  - apply IH.
Qed.

Lemma lex_leb_year_month y1 i1 y2 i2 :
  lex_leb [CNum y1; CNum i1] [CNum y2; CNum i2] = true →
  ((y1 < y2)%Qc ∨ (y1 = y2 ∧ (i1 ≤ i2)%Qc)) ∧
  ([CNum y1; CNum i1] ≠ [CNum y2; CNum i2] →
   (y1 < y2)%Qc ∨ (y1 = y2 ∧ (i1 < i2)%Qc)).
Proof.
  simpl. destruct (decide (CNum y1 = CNum y2)) as [[= ->]|Hy].
  - destruct (decide (CNum i1 = CNum i2)) as [[= ->]|Hi].
    + intros _. split; [right; split; [done | apply Qcle_refl]|]. by intros [].
    + intros Hle%bool_decide_eq_true. split; [by right|]. intros _. right.
      split; [done|]. destruct (Qcle_lt_or_eq _ _ Hle) as [?| ->]; [done|].
      by destruct Hi.
  - intros Hle%bool_decide_eq_true.
    assert ((y1 < y2)%Qc).
    { destruct (Qcle_lt_or_eq _ _ Hle) as [?| ->]; [done|]. by destruct Hy. }
    split; [by left | by intros _; left].
Qed.

Section Monthly.

Context `{!Pandas}.

Lemma export_global_temp_monthly_inv raw out :
  export_global_temp_monthly raw = Ok out →
  ∃ (y t m i : nat) (fresh : bool),
    let L := rename_label global_renaming <$> columns raw in
    label_positions "year" L = [y] ∧
    label_positions "temp_anom" L = [t] ∧
    label_positions "month" L = [m] ∧
    (if fresh then label_positions "month_idx" L = [] ∧ i = length L
     else label_positions "month_idx" L = [i]) ∧
    columns out = (if fresh then L ++ ["month_idx"] else L) ∧
    rows out =
      sort_by (cells_at [y; i])
        (filter (λ r, notna (cell_at i r))
           (monthly_row y t m fresh i <$>
            filter (λ r, between START_YEAR END_YEAR (to_numeric (cell_at y r)))
              (rows raw))).
Proof.
  unfold export_global_temp_monthly. destruct (decide _); [|done].
  set (df0 := rename global_renaming raw).
  set (L := rename_label global_renaming <$> columns raw).
  destruct (column_of TypeError "year" df0) as [y|] eqn:Hy; [|done]. simpl.
  destruct (column_of TypeError "temp_anom" _) as [t|] eqn:Ht; [|done]. simpl.
  destruct (column_of AttributeError "month" _) as [m|] eqn:Hm; [|done]. simpl.
  apply column_of_Ok in Hy, Ht, Hm. simpl in Hy, Ht, Hm. fold L in Hy, Ht, Hm.
  set (df3 := map_column t to_numeric _).
  assert (Hc3 : columns df3 = L) by done.
  assert (Hr3 : rows df3 = alter to_numeric t <$>
            filter (λ r, between START_YEAR END_YEAR (cell_at y r))
              (alter to_numeric y <$> rows raw)) by done.
  set (f := λ r : list cell, month_idx (cell_at m r)).
  destruct (label_positions "month_idx" L) as [|i0 ps] eqn:Hi.
  - (* the column is appended *)
    assert (Hdf4 : assign "month_idx" f df3 =
              {| columns := L ++ ["month_idx"];
                 rows := (λ r, r ++ [f r]) <$> rows df3 |}).
    { unfold assign. by rewrite Hc3, Hi. }
    rewrite Hdf4. unfold column_of at 1. simpl.
    rewrite label_positions_snoc, Hi, decide_True by done. simpl.
    unfold sort_values, columns_of, column_of. simpl.
    rewrite !label_positions_snoc, Hy, Hi, decide_True, decide_False by done.
    simpl. intros [= <-]. simpl.
    exists y, t, m, (length L), true. repeat split; try done.
    f_equal. f_equal.
    rewrite filter_fmap_comm, <-!list_fmap_compose.
    erewrite list_filter_iff; [apply list_fmap_ext; intros _ r _|].
    + done.
    + intros r. simpl. by rewrite cell_at_alter_eq.
  - (* the column exists *)
    assert (Hdf4 : assign "month_idx" f df3 =
              {| columns := L;
                 rows := (λ r, foldr (λ i r', <[i := f r]> r') r (i0 :: ps))
                         <$> rows df3 |}).
    { unfold assign. by rewrite Hc3, Hi. }
    rewrite Hdf4. unfold column_of at 1. simpl. rewrite Hi.
    destruct ps as [|i1 ps]; [|done]. simpl.
    unfold sort_values, columns_of, column_of. simpl. rewrite Hy, Hi. simpl.
    intros [= <-]. simpl.
    exists y, t, m, i0, false. repeat split; try done.
    f_equal. f_equal.
    rewrite filter_fmap_comm, <-!list_fmap_compose.
    erewrite list_filter_iff; [apply list_fmap_ext; intros _ r _|].
    + done.
    + intros r. simpl. by rewrite cell_at_alter_eq.
Qed.

Lemma export_global_temp_monthly_labels raw :
  (∃ out, export_global_temp_monthly raw = Ok out) ↔
  monthly_labels_ok (columns raw).
Proof.
  split.
  - intros [out Hok]. split.
    { revert Hok. unfold export_global_temp_monthly. by destruct (decide _). }
    apply export_global_temp_monthly_inv in Hok
      as (y & t & m & i & fresh & Hy & Ht & Hm & Hi & _).
    unfold one_column. repeat split; eauto.
    destruct fresh; [destruct Hi as [-> _] | rewrite Hi]; simpl; lia.
  - intros (Hsub & (y & Hy) & (t & Ht) & (m & Hm) & Hi).
    unfold export_global_temp_monthly. rewrite decide_True by done.
    erewrite (proj2 (column_of_Ok _ _ _ _)) by exact Hy. simpl.
    erewrite (proj2 (column_of_Ok _ _ _ _)) by exact Ht. simpl.
    erewrite (proj2 (column_of_Ok _ _ _ _)) by exact Hm. simpl.
    set (L := rename_label global_renaming <$> columns raw) in *.
    set (df3 := map_column t to_numeric _).
    assert (Hc3 : columns df3 = L) by done.
    set (f := λ r : list cell, month_idx (cell_at m r)).
    destruct (label_positions "month_idx" L) as [|i0 [|i1 ps]] eqn:Hl;
      [| |simpl in Hi; lia].
    + assert (Hdf4 : assign "month_idx" f df3 =
                {| columns := L ++ ["month_idx"];
                   rows := (λ r, r ++ [f r]) <$> rows df3 |}).
      { unfold assign. by rewrite Hc3, Hl. }
      rewrite Hdf4. unfold column_of at 1. simpl.
      rewrite label_positions_snoc, Hl, decide_True by done. simpl.
      unfold sort_values, columns_of, column_of. simpl.
      rewrite !label_positions_snoc, Hy, Hl, decide_True, decide_False by done.
      simpl. eauto.
    + assert (Hdf4 : assign "month_idx" f df3 =
                {| columns := L;
                   rows := (λ r, foldr (λ i r', <[i := f r]> r') r [i0])
                           <$> rows df3 |}).
      { unfold assign. by rewrite Hc3, Hl. }
      rewrite Hdf4. unfold column_of at 1. simpl. rewrite Hl. simpl.
      unfold sort_values, columns_of, column_of. simpl. rewrite Hy, Hl. simpl.
      eauto.
Qed.

(** The cells of a row the export keeps. *)
Lemma monthly_row_cells raw y t m i (fresh : bool) r :
  let L := rename_label global_renaming <$> columns raw in
  label_positions "year" L = [y] →
  label_positions "temp_anom" L = [t] →
  label_positions "month" L = [m] →
  (if fresh then label_positions "month_idx" L = [] ∧ i = length L
   else label_positions "month_idx" L = [i]) →
  length r = length L →
  let r' := monthly_row y t m fresh i r in
  cell_at y r' = to_numeric (cell_at y r) ∧
  cell_at m r' = cell_at m r ∧
  cell_at i r' = month_idx (cell_at m r).
Proof.
  intros L Hy Ht Hm Hi Hlen r'.
  assert (Hyt : y ≠ t) by (by eapply label_positions_ne; [|exact Hy|exact Ht]).
  assert (Hmt : m ≠ t) by (by eapply label_positions_ne; [|exact Hm|exact Ht]).
  assert (Hmy : m ≠ y) by (by eapply label_positions_ne; [|exact Hm|exact Hy]).
  assert (Hyl : (y < length L)%nat)
    by (apply (label_positions_lt "year"); rewrite Hy; left).
  assert (Hml : (m < length L)%nat)
    by (apply (label_positions_lt "month"); rewrite Hm; left).
  set (r3 := alter to_numeric t (alter to_numeric y r)).
  assert (Hl3 : length r3 = length L) by (subst r3; by rewrite !length_alter).
  assert (Hy3 : cell_at y r3 = to_numeric (cell_at y r)).
  { subst r3. rewrite cell_at_alter_ne by done. by apply cell_at_alter_eq. }
  assert (Hm3 : cell_at m r3 = cell_at m r).
  { subst r3. by rewrite !cell_at_alter_ne by done. }
  subst r'. unfold monthly_row. fold r3. destruct fresh.
  - destruct Hi as [_ ->]. unfold cell_at in *.
    rewrite !lookup_app_l by lia. rewrite Hy3, Hm3.
    repeat split. rewrite lookup_app_r by lia.
    by rewrite Hl3, Nat.sub_diag.
  - assert (Hiy : i ≠ y) by (by eapply label_positions_ne; [|exact Hi|exact Hy]).
    assert (Him : i ≠ m) by (by eapply label_positions_ne; [|exact Hi|exact Hm]).
    assert (Hil : (i < length L)%nat)
      by (apply (label_positions_lt "month_idx"); rewrite Hi; left).
    unfold cell_at in *. rewrite !list_lookup_insert_ne by done.
    rewrite Hy3, Hm3. repeat split.
    rewrite list_lookup_insert_eq by lia. done.
Qed.

(** C8, as amended.  In the frame [export_global_temp_monthly] writes, two
    consecutive rows are in lexicographic order of (year, month_idx): the
    year increases, or it is the same and the month index does not
    decrease; when no two rows of the frame have the same (year, month_idx)
    the order is strict, so one of the two components increases strictly.
    Every row written has a month that is one of the twelve English names,
    spelled exactly, and its index; the rows written are the rows of the
    source whose year is in the window and whose month is such a name, so
    the others are dropped; and no row can make the function raise: a
    frame with the same labels succeeds as well. *)
Theorem export_global_temp_monthly_order raw out :
  frame_wf raw →
  export_global_temp_monthly raw = Ok out →
  ∃ (y t m i : nat) (fresh : bool),
    columns out !! y = Some "year" ∧
    columns out !! m = Some "month" ∧
    columns out !! i = Some "month_idx" ∧
    (∀ r, r ∈ rows out →
       ∃ yr name idx,
         cell_at y r = CNum yr ∧ (START_YEAR ≤ yr)%Qc ∧ (yr ≤ END_YEAR)%Qc ∧
         cell_at m r = CStr name ∧ name ∈ month_order ∧
         month_order !! (idx - 1)%nat = Some name ∧ (1 ≤ idx ≤ 12)%nat ∧
         cell_at i r = CNum (Qc_of_Z (Z.of_nat idx))) ∧
    (∀ n r1 r2 y1 i1 y2 i2,
       rows out !! n = Some r1 → rows out !! S n = Some r2 →
       cell_at y r1 = CNum y1 → cell_at i r1 = CNum i1 →
       cell_at y r2 = CNum y2 → cell_at i r2 = CNum i2 →
       ((y1 < y2)%Qc ∨ (y1 = y2 ∧ (i1 ≤ i2)%Qc)) ∧
       (NoDup (cells_at [y; i] <$> rows out) →
        (y1 < y2)%Qc ∨ (y1 = y2 ∧ (i1 < i2)%Qc))) ∧
    rows out ≡ₚ
      monthly_row y t m fresh i <$>
      filter (λ r, between START_YEAR END_YEAR (to_numeric (cell_at y r)) ∧
                   notna (month_idx (cell_at m r))) (rows raw) ∧
    (∀ raw', columns raw' = columns raw →
       ∃ out', export_global_temp_monthly raw' = Ok out').
Proof.
  intros Hwf Hok. pose proof Hok as Hinv.
  apply export_global_temp_monthly_inv in Hinv
    as (y & t & m & i & fresh & Hy & Ht & Hm & Hi & Hcols & Hrows).
  set (L := rename_label global_renaming <$> columns raw) in *.
  unfold frame_wf in Hwf. rewrite Forall_forall in Hwf.
  assert (Hlen : ∀ r, r ∈ rows raw → length r = length L).
  { intros r Hr. subst L. rewrite length_fmap. by apply Hwf. }
  assert (Hcells : ∀ r, r ∈ rows raw →
            let r' := monthly_row y t m fresh i r in
            cell_at y r' = to_numeric (cell_at y r) ∧
            cell_at m r' = cell_at m r ∧
            cell_at i r' = month_idx (cell_at m r)).
  { intros r Hr. apply (monthly_row_cells raw); try done. by apply Hlen. }
  assert (Hperm : rows out ≡ₚ
            monthly_row y t m fresh i <$>
            filter (λ r, between START_YEAR END_YEAR (to_numeric (cell_at y r)) ∧
                         notna (month_idx (cell_at m r))) (rows raw)).
  { rewrite Hrows, sort_by_perm, filter_fmap_comm, list_filter_filter.
    erewrite filter_ext_in; [done|]. intros r Hr. simpl.
    destruct (Hcells r Hr) as (_ & _ & ->). tauto. }
  assert (Hrow : ∀ r, r ∈ rows out →
            ∃ yr name idx,
              cell_at y r = CNum yr ∧ (START_YEAR ≤ yr)%Qc ∧ (yr ≤ END_YEAR)%Qc ∧
              cell_at m r = CStr name ∧ name ∈ month_order ∧
              month_order !! (idx - 1)%nat = Some name ∧ (1 ≤ idx ≤ 12)%nat ∧
              cell_at i r = CNum (Qc_of_Z (Z.of_nat idx))).
  { intros r Hr. rewrite Hperm in Hr.
    apply list_elem_of_fmap in Hr as (r0 & -> & [[Hb Hn] Hr0]%list_elem_of_filter).
    destruct (Hcells r0 Hr0) as (-> & -> & ->).
    destruct (to_numeric (cell_at y r0)) as [|yr|]; try done.
    apply bool_decide_unpack in Hb as [? ?].
    apply month_idx_notna in Hn as (name & idx & -> & Hidx & ->).
    apply order_map_Some in Hidx as (? & ? & ?).
    by exists yr, name, idx. }
  exists y, t, m, i, fresh.
  assert (HLy : L !! y = Some "year") by (apply label_positions_spec; rewrite Hy; left).
  assert (HLm : L !! m = Some "month") by (apply label_positions_spec; rewrite Hm; left).
  split; [|split; [|split; [|split; [|split; [|split]]]]]; try done.
  - rewrite Hcols. destruct fresh; [by apply lookup_app_l_Some | done].
  - rewrite Hcols. destruct fresh; [by apply lookup_app_l_Some | done].
  - rewrite Hcols. destruct fresh.
    + destruct Hi as [_ ->]. by rewrite lookup_app_r, Nat.sub_diag by lia.
    + apply label_positions_spec. rewrite Hi. left.
  - intros n r1 r2 y1 i1 y2 i2 H1 H2 Hy1 Hi1 Hy2 Hi2.
    assert (Hs : StronglySorted (key_le (cells_at [y; i])) (rows out))
      by (rewrite Hrows; apply sort_by_sorted).
    pose proof (sorted_consecutive _ _ _ _ _ Hs H1 H2) as Hle.
    unfold key_le, cells_at in Hle. simpl in Hle.
    rewrite Hy1, Hi1, Hy2, Hi2 in Hle.
    apply lex_leb_year_month in Hle as [Hweak Hstrict].
    split; [done|]. intros Hnd. apply Hstrict. intros Heq.
    assert (n = S n); [|lia].
    apply (NoDup_lookup _ n (S n) (cells_at [y; i] r1) Hnd).
    + by rewrite list_lookup_fmap, H1.
    + rewrite list_lookup_fmap, H2. simpl. f_equal.
      unfold cells_at. simpl. by rewrite Hy1, Hi1, Hy2, Hi2.
  - intros raw' Hc. apply export_global_temp_monthly_labels. rewrite Hc.
    apply export_global_temp_monthly_labels. by exists out.
Qed.

End Monthly.

(** ** [main]: which failures end the run *)

Lemma exists_without x fs n : n ≠ x → exists_ (without x fs) n = exists_ fs n.
Proof. intros Hn. unfold exists_, without. by rewrite decide_False. Qed.

Lemma find_first_existing_without x fs names :
  x ∉ names →
  find_first_existing (without x fs) names = find_first_existing fs names.
Proof.
  induction names as [|n names IH]; intros Hx; simpl; [done|].
  rewrite exists_without by (intros ->; apply Hx; left).
  rewrite IH; [done|]. intros ?. apply Hx. by right.
Qed.

Lemma find_first_existing_Some fs names p :
  find_first_existing fs names = Some p → p ∈ names ∧ exists_ fs p.
Proof.
  induction names as [|n names IH]; simpl; [done|].
  destruct (exists_ fs n) eqn:E.
  - intros [= <-]. split; [left | by rewrite E].
  - intros [? ?]%IH. split; [by right | done].
Qed.

Lemma find_first_existing_None fs names :
  find_first_existing fs names = None ↔ ∀ n, n ∈ names → fs n = None.
Proof.
  induction names as [|n names IH]; simpl.
  - split; [by intros _ n ?%elem_of_nil | done].
  - unfold exists_ at 1. destruct (fs n) as [f|] eqn:E.
    + rewrite bool_decide_eq_true_2 by eauto. split; [done|].
      intros Hall. specialize (Hall n ltac:(left)). congruence.
    + rewrite bool_decide_eq_false_2 by (by intros [? ?]).
      rewrite IH. split.
      * intros Hall n' [->|?]%elem_of_cons; auto.
      * intros Hall n' ?. apply Hall. by right.
Qed.

Lemma pd_read_csv_without x fs p :
  p ≠ x → pd_read_csv (without x fs) p = pd_read_csv fs p.
Proof. intros Hp. unfold pd_read_csv, without. by rewrite decide_False. Qed.

Lemma read_zip_csv_without x fs z name :
  z ≠ x → read_zip_csv (without x fs) z name = read_zip_csv fs z name.
Proof. intros Hz. unfold read_zip_csv, without. by rewrite decide_False. Qed.

Section Main.

Context `{!Pandas}.

Lemma load_indicators_raises fs p1 p2 p3 p4 p5 :
  raises (load_indicators fs p1 p2 p3 p4 p5) ↔
  raises (load_indicator fs p1 "co2_pc") ∨
  raises (load_indicator fs p2 "energy_pc") ∨
  raises (load_indicator fs p3 "water_basic_pct") ∨
  raises (load_indicator fs p4 "sanitation_pct") ∨
  raises (load_indicator fs p5 "gdp_pc").
Proof.
  unfold load_indicators, load_indicator.
  destruct (pd_read_csv fs p1 ≫= _); simpl; [|tauto].
  destruct (pd_read_csv fs p2 ≫= _); simpl; [|tauto].
  destruct (pd_read_csv fs p3 ≫= _); simpl; [|tauto].
  destruct (pd_read_csv fs p4 ≫= _); simpl; [|tauto].
  destruct (pd_read_csv fs p5 ≫= _); simpl; tauto.
Qed.

Lemma load_indicators_without x fs p1 p2 p3 p4 p5 :
  p1 ≠ x → p2 ≠ x → p3 ≠ x → p4 ≠ x → p5 ≠ x →
  load_indicators (without x fs) p1 p2 p3 p4 p5 = load_indicators fs p1 p2 p3 p4 p5.
Proof.
  intros. unfold load_indicators, load_indicator.
  by rewrite !pd_read_csv_without by done.
Qed.

(** A run and the run without the optional file [x] agree as soon as the
    two optional steps agree. *)
Lemma main_without x fs :
  x ∉ co2_names ++ energy_names ++ water_names ++ sanit_names ++ gdp_names →
  load_temp (without x fs) = load_temp fs →
  export_global (without x fs) = export_global fs →
  main (without x fs) = main fs.
Proof.
  intros Hx Ht Hg. unfold main.
  rewrite !find_first_existing_without
    by (intros ?; apply Hx; rewrite !elem_of_app; tauto).
  destruct (find_first_existing fs co2_names) as [p1|] eqn:E1; [|done].
  destruct (find_first_existing fs energy_names) as [p2|] eqn:E2; [|done].
  destruct (find_first_existing fs water_names) as [p3|] eqn:E3; [|done].
  destruct (find_first_existing fs sanit_names) as [p4|] eqn:E4; [|done].
  destruct (find_first_existing fs gdp_names) as [p5|] eqn:E5; [|done].
  apply find_first_existing_Some in E1 as [E1 _], E2 as [E2 _], E3 as [E3 _],
    E4 as [E4 _], E5 as [E5 _].
  rewrite load_indicators_without, Ht, Hg; [done|..];
    intros ->; apply Hx; rewrite !elem_of_app; tauto.
Qed.

(** C5. If none of the names of one of the five required files exists, the
    run ends with [FileNotFoundError] and has written nothing.  If the five
    files exist and reading or normalising one of them raises, the run ends
    with an exception and has written nothing.  If loading the country
    temperature archive raises, or the global export raises, the run is the
    run without that archive: the exception is caught and the run goes
    on. *)
Theorem main_failures fs :
  (find_first_existing fs co2_names = None ∨
   find_first_existing fs energy_names = None ∨
   find_first_existing fs water_names = None ∨
   find_first_existing fs sanit_names = None ∨
   find_first_existing fs gdp_names = None →
   main fs = ([], Raise FileNotFoundError)) ∧
  (∀ p1 p2 p3 p4 p5,
     find_first_existing fs co2_names = Some p1 →
     find_first_existing fs energy_names = Some p2 →
     find_first_existing fs water_names = Some p3 →
     find_first_existing fs sanit_names = Some p4 →
     find_first_existing fs gdp_names = Some p5 →
     raises (load_indicator fs p1 "co2_pc") ∨
     raises (load_indicator fs p2 "energy_pc") ∨
     raises (load_indicator fs p3 "water_basic_pct") ∨
     raises (load_indicator fs p4 "sanitation_pct") ∨
     raises (load_indicator fs p5 "gdp_pc") →
     ∃ e, main fs = ([], Raise e)) ∧
  (∀ e, read_zip_csv fs temp_zip "monthly-temperature-anomalies.csv"
          ≫= load_country_temp_anom = Raise e →
        main fs = main (without temp_zip fs)) ∧
  (∀ e, read_zip_csv fs global_temp_zip "global-temperature-anomalies-by-month.csv"
          ≫= export_global_temp_monthly = Raise e →
        main fs = main (without global_temp_zip fs)).
Proof.
  split; [|split; [|split]].
  - unfold main. intros Hnone.
    destruct (find_first_existing fs co2_names); [|done].
    destruct (find_first_existing fs energy_names); [|done].
    destruct (find_first_existing fs water_names); [|done].
    destruct (find_first_existing fs sanit_names); [|done].
    destruct (find_first_existing fs gdp_names); [|done].
    destruct Hnone as [?|[?|[?|[?|?]]]]; done.
  - intros p1 p2 p3 p4 p5 E1 E2 E3 E4 E5 Hr%load_indicators_raises.
    unfold main. rewrite E1, E2, E3, E4, E5.
    destruct (load_indicators fs p1 p2 p3 p4 p5) as [?|e]; [done|]. by exists e.
  - intros e He. symmetry. apply main_without.
    + compute_done.
    + unfold load_temp. rewrite He. unfold exists_ at 1, without.
      rewrite decide_True by done.
      rewrite bool_decide_eq_false_2 by (by intros [? ?]).
      by destruct (exists_ fs temp_zip).
    + unfold export_global. rewrite exists_without by done.
      by rewrite read_zip_csv_without by done.
  - intros e He. symmetry. apply main_without.
    + compute_done.
    + unfold load_temp. rewrite exists_without by done.
      by rewrite read_zip_csv_without by done.
    + unfold export_global. rewrite He. unfold exists_ at 1, without.
      rewrite decide_True by done.
      rewrite bool_decide_eq_false_2 by (by intros [? ?]).
      by destruct (exists_ fs global_temp_zip).
Qed.

End Main.

(** * The claims on examples *)

Example demo_out_rows :
  rows demo_out =
  [[CStr "TST"; CStr "Testland"; CNum (Qc_of_Z 2010); CNum (Qc_of_Z 55)]].
Proof. by vm_compute. Qed.

(** C3. The claim fails on a code that ends in a line feed, by the [$] of
    the pattern of line 45: [read_owid_csv] keeps the row of the source
    whose code is [USA] followed by a line feed, a text of four characters
    that is not three capital letters, so not every row of the result has a
    code of exactly three capital letters. *)
Theorem read_owid_csv_keeps_newline_code :
  ∃ out, read_owid_csv newline_df "co2_pc" = Ok out ∧
    rows out = [[CStr ("USA" +:+ line_feed); CStr "Testland";
                 CNum (Qc_of_Z 2010); CNum (Qc_of_Z 55)]] ∧
    String.length ("USA" +:+ line_feed) = 4%nat ∧
    ¬ ∀ r, r ∈ rows out →
        ∃ code rest, r = CStr code :: rest ∧ three_capitals code = true.
Proof.
  eexists. split; [by vm_compute|]. cbn [rows]. split; [done|]. split; [done|].
  intros Hall. destruct (Hall _ ltac:(apply list_elem_of_here))
    as (code & rest & [= <- _] & H3).
  by vm_compute in H3.
Qed.

(** X3 on the example of the specification: the row of [TST] in 2010 is
    kept, the rows with code [T1], year 1999 and a year that is no number are
    dropped. *)
Lemma read_owid_csv_rows_filtered_witness :
  read_owid_csv demo_df "co2_pc" = Ok demo_out ∧
  ∃ n, columns demo_out = "iso3" :: replicate n "country" ++ ["year"; "co2_pc"] ∧
    ∀ r, r ∈ rows demo_out →
      ∃ code countries year value,
        r = CStr code :: countries ++ [CNum year; value] ∧
        length countries = n ∧
        (three_capitals code = true ∨
         ∃ s, code = s +:+ line_feed ∧ three_capitals s = true) ∧
        (START_YEAR ≤ year)%Qc ∧ (year ≤ END_YEAR)%Qc.
Proof.
  split; [by vm_compute|].
  exact (proj1 (read_owid_csv_rows_filtered demo_df "co2_pc" demo_out
                  ltac:(by vm_compute))).
Defined.

(** C6: a source with a column already named [year] has [Entity], [Year]
    and a value column, and yet [read_owid_csv] raises. *)
Lemma read_owid_csv_raises_on_clash :
  ¬ (raises (read_owid_csv clash_df "co2_pc") ↔
     "Entity" ∉ columns clash_df ∨ "Year" ∉ columns clash_df ∨
     ∀ c, c ∈ columns clash_df → c ∈ owid_keys).
Proof.
  intros [Hr _].
  assert (Hraise : raises (read_owid_csv clash_df "co2_pc")) by by vm_compute.
  destruct (Hr Hraise) as [HE|[HY|Hall]].
  - apply HE. solve_elem.
  - apply HY. solve_elem.
  - specialize (Hall "Value" ltac:(solve_elem)). revert Hall. compute_done.
Qed.

(** C9: the function applied to its own result raises. *)
Lemma read_owid_csv_twice_raises :
  read_owid_csv demo_df "co2_pc" = Ok demo_out ∧
  read_owid_csv demo_out "co2_pc" = Raise ValueError.
Proof. split; by vm_compute. Qed.

Lemma read_owid_csv_idempotent_witness :
  read_owid_csv demo_df "co2_pc" = Ok demo_out ∧
  read_owid_csv (rename canonical_to_owid demo_out) "co2_pc" = Ok demo_out.
Proof.
  split; [by vm_compute|].
  apply (read_owid_csv_idempotent demo_df "co2_pc" demo_out); [by vm_compute|].
  compute_done.
Defined.

(** C10: without [Code] and with a column already named [year], the
    function raises. *)
Lemma read_owid_csv_without_code_raises :
  frame_wf nocode_clash_df ∧
  "Entity" ∈ columns nocode_clash_df ∧ "Year" ∈ columns nocode_clash_df ∧
  ("Code" ∉ columns nocode_clash_df) ∧
  (∃ c, c ∈ columns nocode_clash_df ∧ c ∉ owid_keys) ∧
  read_owid_csv nocode_clash_df "co2_pc" = Raise TypeError.
Proof.
  split; [by repeat constructor|].
  split; [solve_elem|]. split; [solve_elem|]. split; [by compute_done|].
  split; [|by vm_compute]. exists "Value". split; [solve_elem | compute_done].
Qed.

Lemma label_clash_nocode : ¬ label_clash nocode_df "co2_pc".
Proof.
  intros (vc & Hvc & Hno). apply Hno.
  assert (vc = "Value") as -> by (vm_compute in Hvc; congruence).
  unfold one_column. repeat split; eexists; by vm_compute.
Defined.

Lemma read_owid_csv_without_code_witness :
  frame_wf nocode_df ∧
  ∃ out, read_owid_csv nocode_df "co2_pc" = Ok out ∧ rows out = [].
Proof.
  split; [by repeat constructor|].
  apply (read_owid_csv_without_code nocode_df "co2_pc").
  - by repeat constructor.
  - solve_elem.
  - solve_elem.
  - compute_done.
  - exists "Value". split; [solve_elem | compute_done].
  - exact label_clash_nocode.
Defined.

(** C1, C2 and C7 on five small sources. *)
Lemma master_table_keys_witness :
  master_table demo_co2 demo_energy demo_water demo_sanit demo_gdp
    (Some demo_temp) = Ok demo_master ∧
  ∀ k, k ∈ frame_keys demo_master ↔
    k ∈ frame_keys demo_co2 ∨ k ∈ frame_keys demo_energy ∨
    k ∈ frame_keys demo_water ∨ k ∈ frame_keys demo_sanit ∨
    k ∈ frame_keys demo_gdp.
Proof.
  split; [by vm_compute|].
  apply (master_table_keys raw_co2 raw_energy raw_water raw_sanit raw_gdp
           demo_co2 demo_energy demo_water demo_sanit demo_gdp
           (Some demo_temp) demo_master); by vm_compute.
Defined.


Lemma master_table_sorted_witness :
  master_table demo_co2 demo_energy demo_water demo_sanit demo_gdp
    (Some demo_temp) = Ok demo_master ∧
  StronglySorted (key_le (cells_at [0; 2])) (rows demo_master).
Proof.
  split; [by vm_compute|].
  destruct (master_table_sorted demo_co2 demo_energy demo_water demo_sanit
              demo_gdp (Some demo_temp) demo_master ltac:(by vm_compute))
    as (merged & _ & _ & _ & _ & Hs & _).
  exact Hs.
Defined.

(** C8: a source with January 2010 twice gives two consecutive rows with
    the same key: neither component increases. *)
Lemma export_global_temp_monthly_ties :
  export_global_temp_monthly twice_january = Ok january_out ∧
  ¬ (∀ n r1 r2 y1 i1 y2 i2,
       rows january_out !! n = Some r1 → rows january_out !! S n = Some r2 →
       cell_at 1 r1 = CNum y1 → cell_at 3 r1 = CNum i1 →
       cell_at 1 r2 = CNum y2 → cell_at 3 r2 = CNum i2 →
       (y1 < y2)%Qc ∨ (i1 < i2)%Qc).
Proof.
  split; [by vm_compute|]. intros Hall.
  destruct (Hall 0
    [CStr "January"; CNum (Qc_of_Z 2010); CNum (Qc_of_Z 1); CNum (Qc_of_Z 1)]
    [CStr "January"; CNum (Qc_of_Z 2010); CNum (Qc_of_Z 2); CNum (Qc_of_Z 1)]
    (Qc_of_Z 2010) (Qc_of_Z 1) (Qc_of_Z 2010) (Qc_of_Z 1))
    as [Hlt|Hlt]; try (by vm_compute); by apply Qclt_not_eq in Hlt.
Qed.

Lemma export_global_temp_monthly_order_witness :
  frame_wf raw_monthly ∧
  export_global_temp_monthly raw_monthly = Ok demo_monthly ∧
  ∀ raw', columns raw' = columns raw_monthly →
    ∃ out', export_global_temp_monthly raw' = Ok out'.
Proof.
  split; [by repeat constructor|]. split; [by vm_compute|].
  destruct (export_global_temp_monthly_order raw_monthly demo_monthly
              ltac:(by repeat constructor) ltac:(by vm_compute))
    as (y & t & m & i & fresh & _ & _ & _ & _ & _ & _ & Hall).
  exact Hall.
Defined.

(** * Further properties of the code *)

(** ** [find_first_existing] *)

(** X1. [find_first_existing] returns the first candidate that exists: the
    candidates before it do not exist; and it returns nothing exactly when
    no candidate exists. *)
Theorem find_first_existing_first fs names :
  (∀ p, find_first_existing fs names = Some p ↔
        ∃ pre post, names = pre ++ p :: post ∧
                    Forall (λ n, fs n = None) pre ∧ is_Some (fs p)) ∧
  (find_first_existing fs names = None ↔ Forall (λ n, fs n = None) names).
Proof.
  split.
  - intros p. induction names as [|n names IH]; simpl.
    + split; [done|]. intros (pre & post & Heq & _). by destruct pre.
    + unfold exists_ at 1. destruct (fs n) as [f|] eqn:E.
      * rewrite bool_decide_eq_true_2 by eauto. split.
        -- intros [= <-]. exists [], names. repeat split; [constructor | eauto].
        -- intros (pre & post & Heq & Hpre & _). destruct pre as [|n' pre].
           ++ simpl in Heq. congruence.
           ++ injection Heq as <- _. apply Forall_cons in Hpre as [? _]. congruence.
      * rewrite bool_decide_eq_false_2 by (by intros [? ?]). rewrite IH. split.
        -- intros (pre & post & -> & Hpre & Hp). exists (n :: pre), post.
           repeat split; [by constructor | done].
        -- intros (pre & post & Heq & Hpre & Hp). destruct pre as [|n' pre].
           ++ simpl in Heq. injection Heq as -> _. destruct Hp. congruence.
           ++ injection Heq as <- ->. apply Forall_cons in Hpre as [_ ?].
              by exists pre, post.
  - rewrite find_first_existing_None, Forall_forall. done.
Qed.


(** ** [read_owid_csv]: the shape of the result *)

Section Owid_shape.

Context `{!Pandas}.

Lemma to_numeric_cases c : to_numeric c = CNull ∨ ∃ q, to_numeric c = CNum q.
Proof.
  destruct c as [|q|s]; simpl; eauto. destruct (parse_num s); simpl; eauto.
Qed.

(** X2. Whatever the source rows are (even ragged ones), a result of
    [read_owid_csv] has a cell per label in every row and no more rows than
    the source; the value cell, the last of the row, is null or a number: a
    value that is no number becomes null and never makes the row fail or
    be dropped, the rows kept being chosen by year and code alone. *)
Theorem read_owid_csv_shape df value_name out :
  read_owid_csv df value_name = Ok out →
  frame_wf out ∧
  (length (rows out) ≤ length (rows df))%nat ∧
  (∀ r, r ∈ rows out →
     ∃ x, last r = Some x ∧ (x = CNull ∨ ∃ q, x = CNum q)) ∧
  ∃ y c v ns,
    columns (ensure_code df) !! v = last (filter (λ c, c ∉ owid_keys) (columns df)) ∧
    rows out = owid_row y c v ns <$> filter (owid_keep y c) (rows (ensure_code df)) ∧
    ∀ r x, owid_keep y c r ↔ owid_keep y c (<[v := x]> r).
Proof.
  intros Hok.
  apply read_owid_csv_inv in Hok
    as (vc & y & c & v & HE & HY & Hvc & Hy & Hc & Hv & ->).
  simpl. set (ns := label_positions "country" _).
  destruct (owid_positions _ _ _ _ _ _ HE HY Hvc Hy Hc Hv) as (_ & _ & Hpv & _).
  pose proof (owid_value_name_fresh _ _ _ _ _ _ HE HY Hvc Hy Hc Hv) as Hfresh.
  assert (Hyv : y ≠ v).
  { eapply label_positions_ne; [|exact Hy|exact Hv].
    intros <-. apply Hfresh. solve_elem. }
  assert (Hcv : c ≠ v).
  { eapply label_positions_ne; [|exact Hc|exact Hv].
    intros <-. apply Hfresh. solve_elem. }
  split; [|split; [|split]].
  - unfold frame_wf. simpl. apply Forall_forall.
    intros r (r0 & -> & _)%list_elem_of_fmap. unfold owid_row.
    cbn [length]. by rewrite !length_app, !length_fmap.
  - rewrite length_fmap.
    etrans; [apply length_filter|].
    unfold ensure_code. destruct (decide _); [done|].
    unfold assign.
    destruct (label_positions "Code" (columns df)); cbn [rows]; by rewrite length_fmap.
  - intros r (r0 & -> & _)%list_elem_of_fmap. unfold owid_row.
    exists (to_numeric (cell_at v r0)). split; [|apply to_numeric_cases].
    rewrite app_comm_cons.
    replace [to_numeric (cell_at y r0); to_numeric (cell_at v r0)]
      with ([to_numeric (cell_at y r0)] ++ [to_numeric (cell_at v r0)]) by done.
    by rewrite app_assoc, last_snoc.
  - exists y, c, v, ns. split; [|split; [done|]].
    + by rewrite Hpv, <-detect_value_col_last, <-detect_value_col_ensure_code.
    + intros r x. unfold owid_keep, cell_at.
      by rewrite !list_lookup_insert_ne by done.
Qed.

End Owid_shape.

Lemma read_owid_csv_shape_witness :
  read_owid_csv demo_df "co2_pc" = Ok demo_out ∧ frame_wf demo_out.
Proof.
  split; [by vm_compute|].
  destruct (read_owid_csv_shape demo_df "co2_pc" demo_out ltac:(by vm_compute))
    as [Hwf _]. exact Hwf.
Defined.

(** ** [load_country_temp_anom]: the rows it groups *)

Section Annual_rows.

Context `{!Pandas}.


Lemma temp_observations_inv raw obs :
  temp_observations raw = Ok obs →
  ∃ (d c t n y : nat) (fresh : bool),
    let L := rename_label temp_renaming <$> columns raw in
    temp_needed ⊆ columns raw ∧
    label_positions "day" L = [d] ∧
    label_positions "iso3" L = [c] ∧
    label_positions "temp_anom" L = [t] ∧
    label_positions "country" L = [n] ∧
    (if fresh then label_positions "year" L = [] ∧ y = length L
     else label_positions "year" L = [y]) ∧
    obs = (λ r, ((cell_at c r, cell_at n r, cell_at y r), cell_at t r)) <$>
          (alter to_numeric t <$>
           filter (λ r, str_match_iso3 (cell_at c r))
             (alter astype_string c <$>
              filter (λ r, between START_YEAR END_YEAR (cell_at y r))
                (annual_row d fresh y <$> rows raw))).
Proof.
  unfold temp_observations. destruct (decide _) as [Hsub|]; [|done].
  set (df0 := rename temp_renaming raw).
  set (L := rename_label temp_renaming <$> columns raw).
  destruct (column_of ValueError "day" df0) as [d|] eqn:Hd; [|done].
  cbn [mbind result_bind].
  apply column_of_Ok in Hd. simpl in Hd. fold L in Hd.
  set (f := λ r : list cell, year_of_day (cell_at d r)).
  assert (Hc0 : columns df0 = L) by done.
  destruct (label_positions "year" L) as [|y0 ps] eqn:Hyr.
  - assert (Hdf1 : assign "year" f df0 =
              {| columns := L ++ ["year"];
                 rows := (λ r, r ++ [f r]) <$> rows raw |}).
    { unfold assign. by rewrite Hc0, Hyr. }
    rewrite Hdf1. unfold column_of. simpl.
    rewrite !label_positions_snoc, Hyr.
    repeat case_decide; try done. simpl. rewrite !app_nil_r.
    destruct (label_positions "iso3" L) as [|c [|c' cs]] eqn:Hc; try done.
    destruct (label_positions "temp_anom" L) as [|t [|t' ts]] eqn:Ht; try done.
    destruct (label_positions "country" L) as [|n [|n' ns]] eqn:Hn; try done.
    simpl. intros [= <-].
    by exists d, c, t, n, (length L), true.
  - assert (Hdf1 : assign "year" f df0 =
              {| columns := L;
                 rows := (λ r, foldr (λ i r', <[i := f r]> r') r (y0 :: ps))
                         <$> rows raw |}).
    { unfold assign. by rewrite Hc0, Hyr. }
    rewrite Hdf1. unfold column_of. simpl. rewrite Hyr.
    destruct ps as [|y1 ps]; [|done]. simpl.
    destruct (label_positions "iso3" L) as [|c [|c' cs]] eqn:Hc; try done.
    destruct (label_positions "temp_anom" L) as [|t [|t' ts]] eqn:Ht; try done.
    destruct (label_positions "country" L) as [|n [|n' ns]] eqn:Hn; try done.
    simpl. intros [= <-].
    by exists d, c, t, n, y0, false.
Qed.

End Annual_rows.

Lemma mean_cases cs : mean cs = CNull ∨ ∃ q, mean cs = CNum q.
Proof. unfold mean. destruct (numbers cs); eauto. Qed.

Section Annual_shape.

Context `{!Pandas}.

Lemma year_of_day_cases c :
  year_of_day c = CNull ∨ ∃ z, year_of_day c = CNum (Qc_of_Z z).
Proof. unfold year_of_day. destruct (to_datetime_year c); simpl; eauto. Qed.

(** What the two filters and the conversions leave of a source row. *)
Lemma temp_observation_cells raw obs o :
  frame_wf raw →
  temp_observations raw = Ok obs →
  o ∈ obs →
  (∃ code, o.1.1.1 = CStr code ∧ re_match_iso3 code = true) ∧
  (∃ z, o.1.2 = CNum (Qc_of_Z z) ∧ (2000 ≤ z ≤ 2023)%Z) ∧
  (o.2 = CNull ∨ ∃ q, o.2 = CNum q).
Proof.
  intros Hwf (d & c & t & n & y & fresh & Hsub & Hd & Hc & Ht & Hn & Hy & ->)
    %temp_observations_inv.
  set (L := rename_label temp_renaming <$> columns raw) in *.
  intros (r3 & -> & (r2 & -> & [Hcode (r1 & -> & [Hyear (r0 & -> & Hr0)
    %list_elem_of_fmap]%list_elem_of_filter)%list_elem_of_fmap]
    %list_elem_of_filter)%list_elem_of_fmap)%list_elem_of_fmap.
  cbn [fst snd].
  assert (Hlen : length r0 = length L).
  { unfold frame_wf in Hwf. rewrite Forall_forall in Hwf.
    unfold L. rewrite length_fmap. by apply Hwf. }
  assert (Hct : c ≠ t) by (by eapply label_positions_ne; [|exact Hc|exact Ht]).
  assert (Hcl : (c < length L)%nat)
    by (apply (label_positions_lt "iso3"); rewrite Hc; left).
  assert (Htl : (t < length L)%nat)
    by (apply (label_positions_lt "temp_anom"); rewrite Ht; left).
  assert (Hyc : y ≠ c ∧ y ≠ t).
  { destruct fresh.
    - destruct Hy as [_ ->]. lia.
    - split.
      + by eapply label_positions_ne; [|exact Hy|exact Hc].
      + by eapply label_positions_ne; [|exact Hy|exact Ht]. }
  destruct Hyc as [Hyc Hyt].
  set (r1 := annual_row d fresh y r0) in *.
  assert (Hy1 : cell_at y r1 = CNull ∨ ∃ z, cell_at y r1 = CNum (Qc_of_Z z)).
  { unfold r1, annual_row. destruct fresh.
    - destruct Hy as [_ ->]. unfold cell_at.
      rewrite lookup_app_r, <-Hlen, Nat.sub_diag by lia. simpl.
      apply year_of_day_cases.
    - unfold cell_at. destruct (decide (y < length r0)%nat).
      + rewrite list_lookup_insert_eq by done. simpl. apply year_of_day_cases.
      + rewrite lookup_ge_None_2 by (rewrite length_insert; lia). by left. }
  split; [|split].
  - rewrite cell_at_alter_ne by done.
    destruct (cell_at c (alter astype_string c r1)) as [| |code]; try done.
    exists code. split; [done|]. by apply Is_true_true.
  - rewrite !cell_at_alter_ne by done.
    destruct Hy1 as [Hy1|[z Hy1]]; rewrite Hy1 in Hyear |- *; [done|].
    exists z. split; [done|]. simpl in Hyear.
    apply bool_decide_unpack in Hyear as [H1 H2].
    unfold START_YEAR, END_YEAR in *.
    apply Z2Qc_inj_le in H1, H2. lia.
  - rewrite cell_at_alter_eq by done. apply to_numeric_cases.
Qed.

End Annual_shape.

Section Annual_result.

Context `{!Pandas}.

(** X4. On a rectangular source, every row of a result of
    [load_country_temp_anom] is a code the pattern accepts (three capital
    letters, alone or followed by one final line feed), a country that is
    not null, a whole year between 2000 and 2023 and an anomaly that is null
    or a number; and the rows come in the order of their keys. *)
Theorem load_country_temp_anom_rows raw temp :
  frame_wf raw →
  load_country_temp_anom raw = Ok temp →
  columns temp = ["iso3"; "country"; "year"; "temp_anom"] ∧
  (∀ r, r ∈ rows temp →
     ∃ code country z v,
       r = [CStr code; country; CNum (Qc_of_Z z); v] ∧
       (three_capitals code = true ∨
        ∃ s, code = s +:+ line_feed ∧ three_capitals s = true) ∧
       country ≠ CNull ∧ (2000 ≤ z ≤ 2023)%Z ∧
       (v = CNull ∨ ∃ q, v = CNum q)) ∧
  StronglySorted (key_le key_cells) (frame_keys temp).
Proof.
  intros Hwf (obs & Hobs & ->)%load_country_temp_anom_Ok.
  split; [done|]. cbn [rows]. split.
  - intros r (g & -> & Hg)%list_elem_of_fmap.
    destruct (groupby_mean_row obs g Hg) as [Hmean Hna].
    assert (g.1 ∈ obs.*1) as (o & Hk & Ho)%list_elem_of_fmap.
    { apply (groupby_mean_elem_of obs). by apply list_elem_of_fmap_2. }
    destruct (temp_observation_cells raw obs o Hwf Hobs Ho)
      as ((code & Hcode & Hmatch) & (z & Hz & Hrange) & _).
    destruct g as [[[gc gn] gy] gv], o as [[[oc on] oy] ov]. simplify_eq/=.
    eexists _, _, _, _. split; [done|].
    split; [by apply re_match_iso3_spec|]. split; [|split; [done|]].
    + unfold key_notna in Hna. intros ->. done.
    + apply mean_cases.
  - unfold frame_keys. cbn [rows]. rewrite <-list_fmap_compose.
    erewrite (list_fmap_ext _ fst)
      by (intros _ g _; apply row_key_key_cells).
    unfold groupby_mean. rewrite <-list_fmap_compose.
    rewrite (list_fmap_ext _ id) by done. rewrite list_fmap_id.
    apply sort_by_sorted.
Qed.


End Annual_result.

Lemma load_country_temp_anom_rows_witness :
  frame_wf raw_temp ∧
  load_country_temp_anom raw_temp = Ok demo_temp ∧
  StronglySorted (key_le key_cells) (frame_keys demo_temp).
Proof.
  assert (Hwf : frame_wf raw_temp) by (by repeat constructor).
  assert (Hok : load_country_temp_anom raw_temp = Ok demo_temp) by (by vm_compute).
  split; [exact Hwf|]. split; [exact Hok|].
  exact (proj2 (proj2 (load_country_temp_anom_rows raw_temp demo_temp Hwf Hok))).
Defined.

(** ** Joins of tables with one row per key *)

Lemma rows_with_NoDup k (t : list trow) :
  NoDup t.*1 → rows_with k t = [] ∨ ∃ r, rows_with k t = [r].
Proof.
  unfold rows_with. induction t as [|r t IH]; [by left|].
  rewrite fmap_cons. intros [Hr Ht]%NoDup_cons. rewrite filter_cons.
  destruct (decide (r.1 = k)) as [<-|_]; [|by apply IH].
  right. exists r. f_equal. by apply (rows_with_nil r.1 t).
Qed.

Lemma join_key_keys nl nr L R k r :
  r ∈ join_key nl nr L R k → r.1 = k.
Proof. by intros [? _]%join_key_spec. Qed.

Lemma join_key_unique nl nr L R k :
  NoDup L.*1 → NoDup R.*1 →
  (join_key nl nr L R k).*1 = [] ∨ (join_key nl nr L R k).*1 = [k].
Proof.
  intros HL HR. unfold join_key.
  destruct (rows_with_NoDup k L HL) as [->|[l ->]],
    (rows_with_NoDup k R HR) as [->|[r ->]]; simpl; auto.
Qed.

Lemma bind_keys_NoDup (f : key → list trow) ks :
  NoDup ks → (∀ k, (f k).*1 = [] ∨ (f k).*1 = [k]) → NoDup (ks ≫= f).*1.
Proof.
  intros Hks Hf. induction Hks as [|k ks Hk Hks IH]; [constructor|].
  rewrite bind_cons, fmap_app. apply NoDup_app. split; [|split; [|done]].
  - destruct (Hf k) as [->| ->]; [constructor | apply NoDup_singleton].
  - intros k' Hk' (r & -> & (k0 & Hr & Hk0)%list_elem_of_bind)%list_elem_of_fmap.
    assert (r.1 = k0) as <-.
    { destruct (Hf k0) as [Hnil|Hone].
      - apply (list_elem_of_fmap_2 fst) in Hr. rewrite Hnil in Hr.
        by apply elem_of_nil in Hr.
      - apply (list_elem_of_fmap_2 fst) in Hr. rewrite Hone in Hr.
        by apply list_elem_of_singleton in Hr. }
    assert (r.1 = k) as Heq.
    { destruct (Hf k) as [Hnil|Hone]; rewrite ?Hnil, ?Hone in Hk'.
      - by apply elem_of_nil in Hk'.
      - by apply list_elem_of_singleton in Hk'. }
    apply Hk. by rewrite <-Heq.
Qed.

(** An outer join of two tables with one row per key has one row per key. *)
Lemma merge_outer_NoDup L R :
  NoDup (trows L).*1 → NoDup (trows R).*1 →
  NoDup (trows (merge_outer L R)).*1.
Proof.
  intros HL HR. unfold merge_outer. cbn [trows].
  apply bind_keys_NoDup; [|intros k; by apply join_key_unique].
  rewrite sort_by_perm. apply NoDup_remove_dups.
Qed.

(** A left join with a table that has one row per key keeps the rows of
    the left side as they are: their number and their order. *)
Lemma merge_left_keys_eq L R :
  NoDup (trows R).*1 → (trows (merge_left L R)).*1 = (trows L).*1.
Proof.
  intros HR. unfold merge_left. cbn [trows].
  induction (trows L) as [|l ls IH]; [done|].
  rewrite bind_cons, fmap_app, IH, fmap_cons. f_equal.
  by destruct (rows_with_NoDup l.1 (trows R) HR) as [->|[r ->]].
Qed.

Section Unique_keys.

Context `{!Pandas}.

(** X6. When each of the five indicator tables, and the temperature table
    if there is one, has one row per (iso3, country, year) key, so has the
    master table; and attaching the temperature table then adds no row and
    removes none: the master table has the keys of the merged indicator
    table, each once. *)
Theorem master_table_unique_keys co2 energy water sanit gdp temp out :
  NoDup (frame_keys co2) → NoDup (frame_keys energy) →
  NoDup (frame_keys water) → NoDup (frame_keys sanit) →
  NoDup (frame_keys gdp) →
  (∀ t, temp = Some t → NoDup (frame_keys t)) →
  master_table co2 energy water sanit gdp temp = Ok out →
  NoDup (frame_keys out) ∧
  ∃ ind, merge_indicators co2 energy water sanit gdp = Ok ind ∧
    NoDup (frame_keys ind) ∧
    frame_keys out ≡ₚ frame_keys ind.
Proof.
  intros H1 H2 H3 H4 H5 Ht (ind & m & t & Hind & Hm & Hkm & ->)%master_table_Ok.
  pose proof Hind as Hind'.
  apply merge_indicators_Ok in Hind'
    as (A & B & C & D & E & HA & HB & HC & HD & HE & Hi & Hki).
  cbn zeta in Hi, Hki.
  set (T := merge_outer (merge_outer (merge_outer (merge_outer A B) C) D) E) in *.
  apply keyed_keys in HA, HB, HC, HD, HE.
  rewrite <-HA in H1. rewrite <-HB in H2. rewrite <-HC in H3.
  rewrite <-HD in H4. rewrite <-HE in H5.
  assert (HT : NoDup (trows T).*1) by (by repeat apply merge_outer_NoDup).
  assert (Hik : frame_keys ind = (trows T).*1) by (symmetry; by apply keyed_keys).
  assert (Hmk : frame_keys m = frame_keys ind).
  { destruct temp as [tmp|]; simpl in Hm; [|by injection Hm as <-].
    apply merge_Ok in Hm as (T' & Tt & HT' & Htmp & -> & _).
    assert (T' = T) as -> by congruence.
    rewrite frame_keys_frame_of_table, Hik. apply merge_left_keys_eq.
    rewrite (keyed_keys _ _ Htmp). by apply Ht. }
  assert (Hperm : frame_keys
            {| columns := columns m; rows := sort_by (cells_at [0; 2]) (rows m) |}
          ≡ₚ frame_keys ind).
  { rewrite <-Hmk. unfold frame_keys. cbn [rows]. by rewrite sort_by_perm. }
  split.
  - rewrite Hperm, Hik. exact HT.
  - exists ind. split; [done|]. split; [by rewrite Hik | done].
Qed.

End Unique_keys.

Lemma master_table_unique_keys_witness :
  master_table demo_co2_once demo_energy demo_water demo_sanit demo_gdp
    (Some demo_temp) = Ok demo_master_once ∧
  NoDup (frame_keys demo_master_once).
Proof.
  split; [by vm_compute|].
  refine (proj1 (master_table_unique_keys demo_co2_once demo_energy demo_water
            demo_sanit demo_gdp (Some demo_temp) demo_master_once
            _ _ _ _ _ _ _)).
  1-5: by apply (bool_decide_unpack (NoDup _)); vm_compute.
  - intros t [= <-]. by apply (bool_decide_unpack (NoDup _)); vm_compute.
  - by vm_compute.
Defined.

(** ** [main]: a run that succeeds *)



Section Main_succeeds.

Context `{!Pandas}.



End Main_succeeds.

